(** * NeuroLink call-system: due detection and reminder dispatch

    A shallow embedding of [src/call-system/app.py] (the reminder scanner
    that places voice calls) together with the properties its design
    document states about it.

    Layout: Python string helpers, the [datetime] values and the two library
    parsers the resolver relies on, [try_parse_datetime], [normalize_e164],
    the reminder store with the [find] / [update_one] operations the scanner
    uses, [call_phone], [mark_called], [process_due_once], [scheduler_loop],
    [run_once] and [health]; then the theorems. *)

From Stdlib Require Import ZArith Ascii String.
From stdpp Require Import base option list strings gmap sorting.

Local Open Scope string_scope.
Local Open Scope list_scope.

(** ** Python strings

    A string is a sequence of 8-bit characters; the model covers ASCII
    text. *)

Module PyStr.

(** [str.isspace] on the ASCII range: TAB, LF, VT, FF, CR, the four
    separators FS GS RS US, and the blank. *)
Definition isspace (c : ascii) : bool :=
  let n := nat_of_ascii c in
  ((9 <=? n) && (n <=? 13) || (28 <=? n) && (n <=? 32))%nat.

Fixpoint lstrip (s : string) : string :=
  match s with
  | EmptyString => EmptyString
  | String c s' => if isspace c then lstrip s' else s
  end.

Fixpoint rstrip (s : string) : string :=
  match s with
  | EmptyString => EmptyString
  | String c s' =>
      match rstrip s' with
      | EmptyString => if isspace c then EmptyString else String c EmptyString
      | r => String c r
      end
  end.

(** [s.strip()] *)
Definition strip (s : string) : string := rstrip (lstrip s).

(** [s.replace(ch, "")] for a one-character [ch]. *)
Fixpoint remove_char (ch : ascii) (s : string) : string :=
  match s with
  | EmptyString => EmptyString
  | String c s' =>
      if Ascii.eqb c ch then remove_char ch s' else String c (remove_char ch s')
  end.

(** [s.startswith(ch)] for a one-character [ch]. *)
Definition startswith (ch : ascii) (s : string) : bool :=
  match s with
  | String c _ => Ascii.eqb c ch
  | EmptyString => false
  end.

Fixpoint forallb (p : ascii -> bool) (s : string) : bool :=
  match s with
  | EmptyString => true
  | String c s' => p c && forallb p s'
  end.

(** Truthiness of an optional string: [None] and [""] are falsy. *)
Definition truthy (o : option string) : bool :=
  match o with
  | Some (String _ _) => true
  | _ => false
  end.

(** [f"{x}"] for a value that is a string or [None]. *)
Definition fmt (o : option string) : string :=
  match o with
  | Some s => s
  | None => "None"
  end.

End PyStr.

(** ** Contact normalisation: [normalize_e164] *)

(** The separators removed, in the order of the source loop. *)
Definition separators : list ascii := [" "; "-"; "("; ")"]%char.

(** [normalize_e164] (app.py, lines 98-114), with [DEFAULT_COUNTRY_CODE] as
    the parameter [cc]. The argument is what [u.get("phoneNumber")] yields:
    a string or [None]. *)
Definition normalize_e164 (cc : string) (number : option string) : option string :=
  match number with
  | None => None
  | Some EmptyString => Some EmptyString
  | Some s =>
      let n := PyStr.strip s in
      let n := fold_left (fun n ch => PyStr.remove_char ch n) separators n in
      if PyStr.startswith "+" n then Some n else Some (cc +:+ n)
  end.

(** A blank, a hyphen or a parenthesis. *)
Definition is_separator (c : ascii) : bool :=
  Ascii.eqb c " " || Ascii.eqb c "-" || Ascii.eqb c "(" || Ascii.eqb c ")".

Fixpoint strip_separators (s : string) : string :=
  match s with
  | EmptyString => EmptyString
  | String c s' =>
      if is_separator c then strip_separators s' else String c (strip_separators s')
  end.

(** The contract of the normaliser in the words of the design document:
    trim; strip spaces, hyphens and parentheses; keep a result that begins
    with [+]; otherwise prepend the default prefix; empty stays empty. *)
Definition normalize_contract (cc : string) (s : string) : string :=
  match s with
  | EmptyString => EmptyString
  | _ =>
      let n := strip_separators (PyStr.strip s) in
      if PyStr.startswith "+" n then n else cc +:+ n
  end.

(** ** Calendar values: Python's naive and aware [datetime] *)

Module DateTime.

Local Open Scope Z_scope.

(** A [datetime]: the civil fields and, for an aware value, the UTC offset
    of its [tzinfo] in microseconds. *)
Record datetime := mkdatetime {
  year : Z; month : Z; day : Z;
  hour : Z; minute : Z; second : Z; microsecond : Z;
  tzinfo : option Z
}.

Definition is_leap (y : Z) : bool :=
  (y mod 4 =? 0) && (negb (y mod 100 =? 0) || (y mod 400 =? 0)).

Definition days_in_month (y m : Z) : Z :=
  match m with
  | 1 | 3 | 5 | 7 | 8 | 10 | 12 => 31
  | 4 | 6 | 9 | 11 => 30
  | 2 => if is_leap y then 29 else 28
  | _ => 0
  end.

Definition days_before_year (y : Z) : Z :=
  let p := y - 1 in p * 365 + p / 4 - p / 100 + p / 400.

Definition days_before_month (y m : Z) : Z :=
  match m with
  | 1 => 0 | 2 => 31 | 3 => 59 | 4 => 90 | 5 => 120 | 6 => 151
  | 7 => 181 | 8 => 212 | 9 => 243 | 10 => 273 | 11 => 304 | 12 => 334
  | _ => 0
  end + (if (2 <? m) && is_leap y then 1 else 0).

(** [toordinal]: the proleptic Gregorian day number, 0001-01-01 being 1. *)
Definition toordinal (d : datetime) : Z :=
  days_before_year (year d) + days_before_month (year d) (month d) + day d.

(** Microseconds of the wall-clock reading since the start of day 0. *)
Definition wall_micros (d : datetime) : Z :=
  (toordinal d * 86400 + hour d * 3600 + minute d * 60 + second d) * 1000000
  + microsecond d.

(** [a - b] as a [timedelta], in microseconds. Two naive values subtract by
    their wall readings, two aware values by their UTC instants, and mixing a
    naive with an aware value raises [TypeError] ([None] here). *)
Definition sub (a b : datetime) : option Z :=
  match tzinfo a, tzinfo b with
  | None, None => Some (wall_micros a - wall_micros b)
  | Some oa, Some ob => Some (wall_micros a - wall_micros b + ob - oa)
  | _, _ => None
  end.

(** The range checks of the [datetime] constructor. *)
Definition valid_date (y m d : Z) : bool :=
  (1 <=? y) && (y <=? 9999) && (1 <=? m) && (m <=? 12)
  && (1 <=? d) && (d <=? days_in_month y m).

Definition valid_time (h mi s us : Z) : bool :=
  (0 <=? h) && (h <=? 23) && (0 <=? mi) && (mi <=? 59)
  && (0 <=? s) && (s <=? 59) && (0 <=? us) && (us <=? 999999).

Definition make (y m d h mi s us : Z) (tz : option Z) : option datetime :=
  if valid_date y m d && valid_time h mi s us
  then Some (mkdatetime y m d h mi s us tz) else None.

(** *** Reading digits *)

Definition is_digit (c : ascii) : bool :=
  let n := nat_of_ascii c in ((48 <=? n) && (n <=? 57))%nat.

Definition digit (c : ascii) : option Z :=
  if is_digit c then Some (Z.of_nat (nat_of_ascii c) - 48) else None.

Definition num2 (a b : ascii) : option Z :=
  x ← digit a; y ← digit b; Some (10 * x + y).

Definition num3 (a b c : ascii) : option Z :=
  x ← digit a; y ← num2 b c; Some (100 * x + y).

Definition num4 (a b c d : ascii) : option Z :=
  x ← num2 a b; y ← num2 c d; Some (100 * x + y).

Definition num6 (a b c d e f : ascii) : option Z :=
  x ← num3 a b c; y ← num3 d e f; Some (1000 * x + y).

(** *** [datetime.fromisoformat]

    Library code, modelled at its documented grammar
    [YYYY-MM-DD[*HH[:MM[:SS[.fff[fff]]]][+HH:MM[:SS[.ffffff]]]]], where [*]
    is any one character, followed by the constructor's range checks.
    (Later interpreters also read further ISO 8601 spellings; every spelling
    still starts with the four digits of the year.) *)

Definition parse_hh_mm_ss_ff (s : string) : option (Z * Z * Z * Z) :=
  match s with
  | String h1 (String h2 r) =>
      h ← num2 h1 h2;
      match r with
      | EmptyString => Some (h, 0, 0, 0)
      | String c1 (String m1 (String m2 r)) =>
          if negb (Ascii.eqb c1 ":") then None else
          mi ← num2 m1 m2;
          match r with
          | EmptyString => Some (h, mi, 0, 0)
          | String c2 (String s1 (String s2 r)) =>
              if negb (Ascii.eqb c2 ":") then None else
              se ← num2 s1 s2;
              match r with
              | EmptyString => Some (h, mi, se, 0)
              | String c3 (String f1 (String f2 (String f3 EmptyString))) =>
                  if negb (Ascii.eqb c3 ".") then None else
                  us ← num3 f1 f2 f3; Some (h, mi, se, 1000 * us)
              | String c3 (String f1 (String f2 (String f3
                  (String f4 (String f5 (String f6 EmptyString)))))) =>
                  if negb (Ascii.eqb c3 ".") then None else
                  us ← num6 f1 f2 f3 f4 f5 f6; Some (h, mi, se, us)
              | _ => None
              end
          | _ => None
          end
      | _ => None
      end
  | _ => None
  end.

(** Cut a time string at its first [+] or [-]. *)
Fixpoint split_sign (s : string) : string * option (ascii * string) :=
  match s with
  | EmptyString => (EmptyString, None)
  | String c s' =>
      if Ascii.eqb c "+" || Ascii.eqb c "-" then (EmptyString, Some (c, s'))
      else let '(a, b) := split_sign s' in (String c a, b)
  end.

Definition parse_utcoffset (sign : ascii) (s : string) : option Z :=
  let n := String.length s in
  if ((n =? 5) || (n =? 8) || (n =? 15))%nat then
    '(h, mi, se, us) ← parse_hh_mm_ss_ff s;
    let secs := h * 3600 + mi * 60 + se in
    if secs =? 0 then Some 0 (* read as UTC, whatever the fraction *)
    else
      let off := secs * 1000000 + us in
      let off := if Ascii.eqb sign "-" then - off else off in
      if (-86400000000 <? off) && (off <? 86400000000) then Some off else None
  else None.

Definition parse_isoformat_time (s : string)
  : option (Z * Z * Z * Z * option Z) :=
  let '(t, z) := split_sign s in
  '(h, mi, se, us) ← parse_hh_mm_ss_ff t;
  match z with
  | None => Some (h, mi, se, us, None)
  | Some (sign, zs) => off ← parse_utcoffset sign zs; Some (h, mi, se, us, Some off)
  end.

Definition fromisoformat (s : string) : option datetime :=
  match s with
  | String y1 (String y2 (String y3 (String y4 (String c4
      (String m1 (String m2 (String c7 (String d1 (String d2 rest))))))))) =>
      if negb (Ascii.eqb c4 "-" && Ascii.eqb c7 "-") then None else
      y ← num4 y1 y2 y3 y4; m ← num2 m1 m2; d ← num2 d1 d2;
      match rest with
      | EmptyString => make y m d 0 0 0 0 None
      | String _ tstr =>
          '(h, mi, se, us, tz) ← parse_isoformat_time tstr;
          make y m d h mi se us tz
      end
  | _ => None
  end.

(** *** [datetime.strptime(s, "%d/%m/%Y %H:%M")]

    Library code. The format compiles to the regular expression
    [(3[0-1]|[1-2]\d|0[1-9]|[1-9]| [1-9])/(1[0-2]|0[1-9]|[1-9])/(\d\d\d\d)\s+(2[0-3]|[0-1]\d|\d):([0-5]\d|\d)],
    matched at the start of the string; text left after the match is an
    error, and so is a date the calendar does not have. *)

Definition between (lo hi c : ascii) : bool :=
  ((nat_of_ascii lo <=? nat_of_ascii c) && (nat_of_ascii c <=? nat_of_ascii hi))%nat.

Definition day_2 (a b : ascii) : option Z :=
  if Ascii.eqb a "3" && between "0" "1" b then num2 a b
  else if between "1" "2" a && is_digit b then num2 a b
  else if Ascii.eqb a "0" && between "1" "9" b then num2 a b
  else if Ascii.eqb a " " && between "1" "9" b then digit b
  else None.

Definition month_2 (a b : ascii) : option Z :=
  if Ascii.eqb a "1" && between "0" "2" b then num2 a b
  else if Ascii.eqb a "0" && between "1" "9" b then num2 a b
  else None.

Definition hour_2 (a b : ascii) : option Z :=
  if Ascii.eqb a "2" && between "0" "3" b then num2 a b
  else if between "0" "1" a && is_digit b then num2 a b
  else None.

Definition nonzero_digit (a : ascii) : option Z :=
  if between "1" "9" a then digit a else None.

(** A one-character group or a two-character group, then the literal
    [sep]. The one-character reading applies exactly when [sep] comes
    second. *)
Definition group_then (sep : ascii) (one : ascii -> option Z)
    (two : ascii -> ascii -> option Z) (s : string) : option (Z * string) :=
  match s with
  | String a (String b r) =>
      if Ascii.eqb b sep then v ← one a; Some (v, r)
      else
        match r with
        | String c r' => if Ascii.eqb c sep then v ← two a b; Some (v, r') else None
        | EmptyString => None
        end
  | _ => None
  end.

Definition match_day : string -> option (Z * string) :=
  group_then "/" nonzero_digit day_2.

Definition match_month : string -> option (Z * string) :=
  group_then "/" nonzero_digit month_2.

Definition match_year (s : string) : option (Z * string) :=
  match s with
  | String a (String b (String c (String d r))) => y ← num4 a b c d; Some (y, r)
  | _ => None
  end.

(** [\s+]: at least one white-space character, then as many as follow. *)
Definition match_spaces (s : string) : option string :=
  match s with
  | String c r => if PyStr.isspace c then Some (PyStr.lstrip r) else None
  | EmptyString => None
  end.

Definition match_hour : string -> option (Z * string) :=
  group_then ":" digit hour_2.

(** The minute group, with nothing allowed after it. *)
Definition match_minute_end (s : string) : option Z :=
  match s with
  | String a EmptyString => digit a
  | String a (String b EmptyString) =>
      if between "0" "5" a && is_digit b then num2 a b else None
  | _ => None
  end.

Definition strptime_dmY_HM (s : string) : option datetime :=
  '(d, s) ← match_day s;
  '(m, s) ← match_month s;
  '(y, s) ← match_year s;
  s ← match_spaces s;
  '(h, s) ← match_hour s;
  mi ← match_minute_end s;
  make y m d h mi 0 0 None.

End DateTime.

(** ** Date/time resolution: [try_parse_datetime] *)

Section Resolver.

(** The two library parsers the resolver calls. *)
Variable iso : string -> option DateTime.datetime.
Variable dmy : string -> option DateTime.datetime.

(** The [for s in candidates] loop (app.py, lines 48-58): ISO first and,
    when that raises, the [DD/MM/YYYY HH:MM] pattern on the same string. *)
Fixpoint first_parsed (candidates : list string) : option DateTime.datetime :=
  match candidates with
  | [] => None
  | s :: rest =>
      match iso s with
      | Some dt => Some dt
      | None =>
          match dmy s with
          | Some dt => Some dt
          | None => first_parsed rest
          end
      end
  end.

(** [try_parse_datetime] (app.py, lines 41-59), over the two parsers. *)
Definition try_parse_datetime_with (date_str time_str : option string)
  : option DateTime.datetime :=
  if negb (PyStr.truthy date_str) || negb (PyStr.truthy time_str) then None
  else
    let candidates :=
      [ PyStr.fmt date_str +:+ " " +:+ PyStr.fmt time_str;
        PyStr.fmt date_str +:+ "T" +:+ PyStr.fmt time_str ] in
    first_parsed candidates.

End Resolver.

Definition try_parse_datetime : option string -> option string -> option DateTime.datetime :=
  try_parse_datetime_with DateTime.fromisoformat DateTime.strptime_dmY_HM.

(** The resolver as the design document words it: the [date time] form,
    then the [date"T"time] form, then the [DD/MM/YYYY HH:MM] fallback; the
    first that parses wins, and a missing part is unparseable at once. *)
Definition resolve_in_stated_order (date_str time_str : option string)
  : option DateTime.datetime :=
  match date_str, time_str with
  | Some (String _ _ as d), Some (String _ _ as t) =>
      match DateTime.fromisoformat (d +:+ " " +:+ t) with
      | Some dt => Some dt
      | None =>
          match DateTime.fromisoformat (d +:+ "T" +:+ t) with
          | Some dt => Some dt
          | None => DateTime.strptime_dmY_HM (d +:+ " " +:+ t)
          end
      end
  | _, _ => None
  end.

(** ** The reminder store *)

Record Reminder := mkReminder {
  date : option string;
  time : option string;
  message : option string;
  calledAt : option Z;
  createdAt : option Z
}.

Record User := mkUser {
  userId : option string;
  phoneNumber : option string;
  phoneRemindersEnabled : bool;
  reminders : list Reminder
}.

(** The [users] collection, in document order. *)
Abbreviation Collection := (list User).

(** A reminder is addressed by the index of its user document and its index
    in that document's [reminders] array. *)
Definition Pos : Type := nat * nat.

Definition reminder_at (coll : Collection) (p : Pos) : option Reminder :=
  u ← coll !! p.1; reminders u !! p.2.

Definition calledAt_at (coll : Collection) (p : Pos) : option Z :=
  r ← reminder_at coll p; calledAt r.

(** *** The candidate query

    A Python dict display keeps, for a key written twice, the value written
    last. *)
Definition dict_display {V} (items : list (string * V)) : gmap string V :=
  fold_left (fun m kv => <[kv.1 := kv.2]> m) items ∅.

(** The operator document the source writes for [phoneNumber]:
    [{"$ne": None, "$ne": ""}]. *)
Definition phoneNumber_ops : gmap string (option string) :=
  dict_display [("$ne", None); ("$ne", Some "")].

(** [field] against an operator document; [$ne] is the one operator used.
    A missing or null field is [None]. *)
Definition satisfies (field : option string) (ops : gmap string (option string)) : bool :=
  match ops !! "$ne" with
  | Some v => bool_decide (field ≠ v)
  | None => true
  end.

Definition find_filter (u : User) : bool :=
  phoneRemindersEnabled u && satisfies (phoneNumber u) phoneNumber_ops.

(** [db.users.find(...)] (app.py, lines 126-129): the matching documents,
    each with its index. *)
Fixpoint find_from (i : nat) (coll : Collection) : list (nat * User) :=
  match coll with
  | [] => []
  | u :: rest =>
      if find_filter u then (i, u) :: find_from (S i) rest
      else find_from (S i) rest
  end.

Definition find (coll : Collection) : list (nat * User) := find_from 0 coll.

(** ** Configuration and the environment of one pass *)

(** The module-level configuration read at start-up: whether [db] and
    [twilio_client] are set, and the values of the remaining globals. *)
Record Config := mkConfig {
  db : bool;
  twilio_client : bool;
  TWILIO_PHONE : option string;
  DEFAULT_COUNTRY_CODE : string;
  WINDOW_SECONDS : Z;
  INTERVAL_SECONDS : Z
}.

(** What the outside world answers during one pass: the wall clock read by
    [datetime.now()], whether [db.users.find] returns or raises, and, for the
    reminder at each position, whether the provider accepts the call, whether
    [update_one] returns or raises, and the UTC instant [mark_called] reads. *)
Record PassEnv := mkPassEnv {
  clock : DateTime.datetime;
  store_up : bool;
  call_ok : Pos -> bool;
  mark_ok : Pos -> bool;
  utcnow : Pos -> Z
}.

(** [datetime.now()] is naive. *)
Definition now (env : PassEnv) : DateTime.datetime :=
  let c := clock env in
  DateTime.mkdatetime (DateTime.year c) (DateTime.month c) (DateTime.day c)
    (DateTime.hour c) (DateTime.minute c) (DateTime.second c)
    (DateTime.microsecond c) None.

Inductive LogLine :=
| MongoNotConfigured
| TwilioNotConfigured
| CallFailed (uid : option string)
| SchedulerError.

(** What a pass does that can be seen from outside, in order. *)
Inductive Event :=
| Parsed (p : Pos) (dt : option DateTime.datetime)
| Classified (p : Pos) (diff : Z) (due : bool)
| ProviderCall (p : Pos) (to : option string) (msg : string) (ok : bool)
| MarkWrite (p : Pos) (hit : option Pos)
| MarkRaised (p : Pos)
| Printed (l : LogLine)
| Slept (seconds : Z).

Definition provider_configured (cfg : Config) : bool :=
  twilio_client cfg && PyStr.truthy (TWILIO_PHONE cfg).

(** [call_phone] (app.py, lines 62-69): [RuntimeError] when the provider is
    not configured, otherwise exactly one [calls.create] with [to] and the
    message; [false] stands for a raised exception. *)
Definition call_phone (cfg : Config) (env : PassEnv) (p : Pos)
    (to_number : option string) (msg : string) : list Event * bool :=
  if negb (provider_configured cfg) then ([], false)
  else ([ProviderCall p to_number msg (call_ok env p)], call_ok env p).

(** *** [mark_called] (app.py, lines 72-95) *)

Definition set_calledAt (r : Reminder) (stamp : Z) : Reminder :=
  mkReminder (date r) (time r) (message r) (Some stamp) (createdAt r).

Definition set_reminders (u : User) (rs : list Reminder) : User :=
  mkUser (userId u) (phoneNumber u) (phoneRemindersEnabled u) rs.

(** The condition [filter_query] puts on an element of [reminders]. *)
Definition elem_matches (reminder r' : Reminder) : bool :=
  match createdAt reminder with
  | Some created_at => bool_decide (createdAt r' = Some created_at)
  | None =>
      bool_decide (date r' = date reminder)
      && bool_decide (time r' = time reminder)
      && bool_decide (message r' = message reminder)
      && bool_decide (calledAt r' = None)
  end.

Definition doc_matches (user_id : option string) (reminder : Reminder) (u : User) : bool :=
  bool_decide (userId u = user_id) && existsb (elem_matches reminder) (reminders u).

(** [update_one] with the positional path [reminders.$.calledAt]: the first
    document that satisfies the filter, and in it the first array element
    that satisfies the array condition. Returns the position written. *)
Definition mark_called (coll : Collection) (user_id : option string)
    (reminder : Reminder) (stamp : Z) : Collection * option Pos :=
  match list_find (doc_matches user_id reminder) coll with
  | None => (coll, None)
  | Some (i, u) =>
      match list_find (elem_matches reminder) (reminders u) with
      | None => (coll, None)
      | Some (j, r') =>
          (<[i := set_reminders u (<[j := set_calledAt r' stamp]> (reminders u))]> coll,
           Some (i, j))
      end
  end.

(** ** One scan pass: [process_due_once] *)

Definition in_window (cfg : Config) (diff : Z) : bool :=
  ((0 <=? diff) && (diff <=? WINDOW_SECONDS cfg * 1000000))%Z.

Definition reminder_text (r : Reminder) : string :=
  "Reminder: " +:+ PyStr.fmt (message r) +:+ " at " +:+ PyStr.fmt (time r)
  +:+ " on " +:+ PyStr.fmt (date r) +:+ ".".

(** The [try] block and its handler (app.py, lines 143-149). *)
Definition dispatch (cfg : Config) (env : PassEnv) (coll : Collection)
    (p : Pos) (uid num : option string) (r : Reminder) : Collection * list Event :=
  let msg := reminder_text r in
  let to_num := normalize_e164 (DEFAULT_COUNTRY_CODE cfg) num in
  match call_phone cfg env p to_num msg with
  | (evs, false) => (coll, evs ++ [Printed (CallFailed uid)])
  | (evs, true) =>
      if mark_ok env p then
        let '(coll', hit) := mark_called coll uid r (utcnow env p) in
        (coll', evs ++ [MarkWrite p hit])
      else (coll, evs ++ [MarkRaised p; Printed (CallFailed uid)])
  end.

(** The body of [for r in rem_list] (app.py, lines 136-149). The flag is
    [true] when an exception leaves the body (the subtraction of an aware
    instant from [now]). The difference is kept in microseconds:
    [total_seconds()] is that number over 10^6, compared with [0] and
    [WINDOW_SECONDS]; the rounding of that quotient to a float is not
    modelled (at the default window it changes no comparison). *)
Definition reminder_step (cfg : Config) (env : PassEnv) (coll : Collection)
    (p : Pos) (uid num : option string) (r : Reminder)
  : Collection * list Event * bool :=
  match calledAt r with
  | Some _ => (coll, [], false)
  | None =>
      match try_parse_datetime (date r) (time r) with
      | None => (coll, [Parsed p None], false)
      | Some dt =>
          match DateTime.sub (now env) dt with
          | None => (coll, [Parsed p (Some dt)], true)
          | Some diff =>
              if in_window cfg diff then
                let '(coll', evs) := dispatch cfg env coll p uid num r in
                (coll', Parsed p (Some dt) :: Classified p diff true :: evs, false)
              else (coll, [Parsed p (Some dt); Classified p diff false], false)
          end
      end
  end.

Fixpoint scan_reminders (cfg : Config) (env : PassEnv) (ui : nat)
    (uid num : option string) (ri : nat) (rem_list : list Reminder)
    (coll : Collection) : Collection * list Event * bool :=
  match rem_list with
  | [] => (coll, [], false)
  | r :: rest =>
      let '(coll1, evs1, raised) := reminder_step cfg env coll (ui, ri) uid num r in
      if raised then (coll1, evs1, true)
      else
        let '(coll2, evs2, raised2) :=
          scan_reminders cfg env ui uid num (S ri) rest coll1 in
        (coll2, evs1 ++ evs2, raised2)
  end.

Fixpoint scan_users (cfg : Config) (env : PassEnv) (users : list (nat * User))
    (coll : Collection) : Collection * list Event * bool :=
  match users with
  | [] => (coll, [], false)
  | (ui, u) :: rest =>
      let '(coll1, evs1, raised) :=
        scan_reminders cfg env ui (userId u) (phoneNumber u) 0 (reminders u) coll in
      if raised then (coll1, evs1, true)
      else
        let '(coll2, evs2, raised2) := scan_users cfg env rest coll1 in
        (coll2, evs1 ++ evs2, raised2)
  end.

(** [process_due_once] (app.py, lines 117-149): the collection after the
    pass, what the pass did, and whether it ended by an exception. *)
Definition process_due_once (cfg : Config) (env : PassEnv) (coll : Collection)
  : Collection * list Event * bool :=
  if negb (db cfg) then (coll, [Printed MongoNotConfigured], false)
  else if negb (provider_configured cfg) then (coll, [Printed TwilioNotConfigured], false)
  else if negb (store_up env) then (coll, [], true)
  else scan_users cfg env (find coll) coll.

(** ** The two entry points *)

(** [scheduler_loop] (app.py, lines 152-158), unrolled over the ticks seen
    so far: one entry of the log per iteration. *)
Fixpoint scheduler_loop (cfg : Config) (ticks : list PassEnv) (coll : Collection)
  : Collection * list (list Event) :=
  match ticks with
  | [] => (coll, [])
  | env :: rest =>
      let '(coll1, evs, raised) := process_due_once cfg env coll in
      let handler := if raised then [Printed SchedulerError] else [] in
      let '(coll2, logs) := scheduler_loop cfg rest coll1 in
      (coll2, (evs ++ handler ++ [Slept (INTERVAL_SECONDS cfg)]) :: logs)
  end.

Inductive Response := Success200 | Failure500.

(** [run_once] (app.py, lines 172-178): the manual trigger. *)
Definition run_once (cfg : Config) (env : PassEnv) (coll : Collection)
  : Collection * list Event * Response :=
  let '(coll1, evs, raised) := process_due_once cfg env coll in
  (coll1, evs, if raised then Failure500 else Success200).

(** *** The health report

    The JSON object [health] returns (app.py, lines 161-169). *)
Record Health := mkHealth {
  ok : bool;
  mongodb : bool;
  twilio : bool;
  windowSeconds : Z;
  intervalSeconds : Z
}.

Definition health (cfg : Config) : Health :=
  mkHealth true (db cfg) (provider_configured cfg)
    (WINDOW_SECONDS cfg) (INTERVAL_SECONDS cfg).

(** Passes run one after another, whichever entry point starts each. *)
Inductive Trigger :=
| Tick (env : PassEnv)
| Manual (env : PassEnv).

Definition fire (cfg : Config) (t : Trigger) (coll : Collection)
  : Collection * list Event :=
  match t with
  | Tick env => let '(c, logs) := scheduler_loop cfg [env] coll in (c, concat logs)
  | Manual env => let '(c, evs, _) := run_once cfg env coll in (c, evs)
  end.

Fixpoint run_passes (cfg : Config) (ts : list Trigger) (coll : Collection)
  : Collection * list (list Event) :=
  match ts with
  | [] => (coll, [])
  | t :: rest =>
      let '(coll1, evs) := fire cfg t coll in
      let '(coll2, logs) := run_passes cfg rest coll1 in
      (coll2, evs :: logs)
  end.

(** ** Character classes used in the statements *)

(** Characters that neither trimming nor separator removal touches. *)
Definition plain (c : ascii) : bool :=
  negb (PyStr.isspace c) && negb (is_separator c).

(** The blank is the only white space allowed. *)
Definition blank_or_visible (c : ascii) : bool :=
  negb (PyStr.isspace c) || Ascii.eqb c " ".

(** The characters the [DD/MM/YYYY HH:MM] pattern can consume. *)
Definition dmy_char (c : ascii) : bool :=
  DateTime.is_digit c || Ascii.eqb c "/" || Ascii.eqb c ":" || PyStr.isspace c.

(** A [/] as the second or third character. *)
Definition slash_early (s : string) : bool :=
  match s with
  | String _ (String b r) =>
      Ascii.eqb b "/"
      || match r with String c _ => Ascii.eqb c "/" | EmptyString => false end
  | _ => false
  end.

(** The characters of [s] that satisfy [p], in order. *)
Fixpoint keep (p : ascii -> bool) (s : string) : string :=
  match s with
  | EmptyString => EmptyString
  | String c s' => if p c then String c (keep p s') else keep p s'
  end.

(** ** Reading a log and comparing collections *)

(** The reminders the provider was invoked for, in order. *)
Definition call_positions (evs : list Event) : list Pos :=
  omap (fun e => match e with ProviderCall p _ _ _ => Some p | _ => None end) evs.

(** The event is a parse, a window classification or a provider call for
    the reminder at [p]. *)
Definition examines (p : Pos) (e : Event) : Prop :=
  match e with
  | Parsed q _ | Classified q _ _ | ProviderCall q _ _ _ => q = p
  | _ => False
  end.

Definition forget_calledAt (coll : Collection) : Collection :=
  (fun u => set_reminders u
     ((fun r => mkReminder (date r) (time r) (message r) None (createdAt r))
        <$> reminders u)) <$> coll.

(** [coll'] differs from [coll] in [calledAt] fields only, and none of them
    went back to null. *)
Definition evolves (coll coll' : Collection) : Prop :=
  forget_calledAt coll' = forget_calledAt coll
  /\ forall q, is_Some (calledAt_at coll q) -> is_Some (calledAt_at coll' q).

(** How the design document says a stored reminder [r'] is matched against
    the reminder that was dispatched. *)
Definition identifies (reminder r' : Reminder) : Prop :=
  match createdAt reminder with
  | Some created_at => createdAt r' = Some created_at
  | None =>
      date r' = date reminder /\ time r' = time reminder
      /\ message r' = message reminder /\ calledAt r' = None
  end.

(** What a log shows that does not depend on how the provider and the store
    answered: the parses, the classifications and the calls that were
    attempted (with their outcome blanked). *)
Definition outline (evs : list Event) : list Event :=
  omap (fun e =>
          match e with
          | Parsed _ _ | Classified _ _ _ => Some e
          | ProviderCall p to msg _ => Some (ProviderCall p to msg true)
          | _ => None
          end) evs.

(** The successful provider calls for the reminder at [p] in a log. *)
Definition is_success_at (p : Pos) (e : Event) : bool :=
  match e with
  | ProviderCall q _ _ true => bool_decide (q = p)
  | _ => false
  end.

Fixpoint successes (p : Pos) (evs : list Event) : nat :=
  match evs with
  | [] => 0
  | e :: rest => (if is_success_at p e then 1 else 0) + successes p rest
  end.

(** Every mark-called write of the log went through and stamped the
    reminder it was made for. *)
Definition marks_land (log : list Event) : Prop :=
  (forall p, MarkRaised p ∉ log)
  /\ (forall p hit, MarkWrite p hit ∈ log -> hit = Some p).

(** Document order on positions: by user document, then by the index in
    its [reminders] array. *)
Definition pos_lt (p q : Pos) : Prop :=
  p.1 < q.1 \/ (p.1 = q.1 /\ p.2 < q.2).

(** Every reminder carries a [createdAt], and no two reminders of documents
    with the same [userId] share one. *)
Definition uniquely_identified (coll : Collection) : Prop :=
  forall i u j r,
    coll !! i = Some u -> reminders u !! j = Some r ->
    is_Some (createdAt r)
    /\ forall i' u' j' r',
         coll !! i' = Some u' -> reminders u' !! j' = Some r' ->
         userId u' = userId u -> createdAt r' = createdAt r ->
         (i', j') = (i, j).


(** ** A pass as one sequence of loop bodies *)

(** One execution of the inner loop body: the reminder, its position, and
    the [uid] and [num] of its user. *)
Definition Job : Type := Pos * option string * option string * Reminder.

Definition job_pos (j : Job) : Pos := j.1.1.1.

Fixpoint jobs_from (ui : nat) (uid num : option string) (ri : nat)
    (rem_list : list Reminder) : list Job :=
  match rem_list with
  | [] => []
  | r :: rest => ((ui, ri), uid, num, r) :: jobs_from ui uid num (S ri) rest
  end.

Fixpoint jobs (users : list (nat * User)) : list Job :=
  match users with
  | [] => []
  | (ui, u) :: rest =>
      jobs_from ui (userId u) (phoneNumber u) 0 (reminders u) ++ jobs rest
  end.

Definition run_job (cfg : Config) (env : PassEnv) (coll : Collection) (j : Job)
  : Collection * list Event * bool :=
  let '(p, uid, num, r) := j in reminder_step cfg env coll p uid num r.

Fixpoint run_jobs (cfg : Config) (env : PassEnv) (js : list Job)
    (coll : Collection) : Collection * list Event * bool :=
  match js with
  | [] => (coll, [], false)
  | j :: rest =>
      let '(coll1, evs1, raised) := run_job cfg env coll j in
      if raised then (coll1, evs1, true)
      else
        let '(coll2, evs2, raised2) := run_jobs cfg env rest coll1 in
        (coll2, evs1 ++ evs2, raised2)
  end.

Definition trigger_env (t : Trigger) : PassEnv :=
  match t with Tick env | Manual env => env end.

(** What an entry point adds to the log after its pass. *)
Definition epilogue (cfg : Config) (t : Trigger) (raised : bool) : list Event :=
  match t with
  | Tick _ =>
      (if raised then [Printed SchedulerError] else []) ++ [Slept (INTERVAL_SECONDS cfg)]
  | Manual _ => []
  end.

(** ** Sample data *)

(** Store and provider configured; country code, window and interval at the
    defaults of the source. *)
Definition sample_cfg : Config :=
  mkConfig true true (Some "+15550100") "+91" 900 60.

Definition sample_clock : DateTime.datetime :=
  DateTime.mkdatetime 2024 5 1 9 31 0 0 None.

(** Provider and store answer every request. *)
Definition healthy (c : DateTime.datetime) : PassEnv :=
  mkPassEnv c true (fun _ => true) (fun _ => true) (fun _ => 1714555860000000%Z).

(** The provider raises on every call. *)
Definition provider_down (c : DateTime.datetime) : PassEnv :=
  mkPassEnv c true (fun _ => false) (fun _ => true) (fun _ => 1714555860000000%Z).

Definition sample_reminder : Reminder :=
  mkReminder (Some "2024-05-01") (Some "09:30") (Some "pills") None None.

Definition called_reminder : Reminder :=
  mkReminder (Some "2024-05-01") (Some "09:30") (Some "pills")
    (Some 1714555800000000%Z) None.

Definition sample_user (rs : list Reminder) : User :=
  mkUser (Some "u1") (Some "98765 43210") true rs.

(** The provider raises for the reminder at [p] and accepts every other
    call. *)
Definition provider_fails_at (p : Pos) (c : DateTime.datetime) : PassEnv :=
  mkPassEnv c true (fun q => bool_decide (q <> p)) (fun _ => true)
    (fun _ => 1714555860000000%Z).

(** A reminder identified by its [createdAt]. *)
Definition identified_reminder (created : Z) : Reminder :=
  mkReminder (Some "2024-05-01") (Some "09:30") (Some "pills") None (Some created).

(** A reminder whose time carries a UTC offset. *)
Definition aware_reminder : Reminder :=
  mkReminder (Some "2024-05-01") (Some "09:30+05:30") (Some "pills") None None.

(* ===================================================================== *)
(** * Properties *)
(* ===================================================================== *)

(** ** Strings *)

Lemma remove_separators_fold (n : string) :
  fold_left (fun n ch => PyStr.remove_char ch n) separators n = strip_separators n.
Proof.
  unfold separators; simpl.
  induction n as [|c n IH]; [reflexivity|].
  cbn [strip_separators PyStr.remove_char]. unfold is_separator.
  destruct (Ascii.eqb c " ") eqn:E1; cbn [orb PyStr.remove_char]; [exact IH|].
  destruct (Ascii.eqb c "-") eqn:E2; cbn [orb PyStr.remove_char]; [exact IH|].
  destruct (Ascii.eqb c "(") eqn:E3; cbn [orb PyStr.remove_char]; [exact IH|].
  destruct (Ascii.eqb c ")") eqn:E4; cbn [orb PyStr.remove_char]; [exact IH|].
  now rewrite IH.
Qed.

Lemma forallb_append p (a b : string) :
  PyStr.forallb p (a +:+ b) = PyStr.forallb p a && PyStr.forallb p b.
Proof.
  induction a as [|c a IH]; simpl; [reflexivity|].
  now rewrite IH, andb_assoc.
Qed.

Lemma forallb_lstrip p s :
  PyStr.forallb p s = true -> PyStr.forallb p (PyStr.lstrip s) = true.
Proof.
  induction s as [|c s IH]; simpl; [trivial|].
  intros [Hc Hs]%andb_prop.
  destruct (PyStr.isspace c); [auto|].
  simpl. now rewrite Hc, Hs.
Qed.

Lemma forallb_rstrip p s :
  PyStr.forallb p s = true -> PyStr.forallb p (PyStr.rstrip s) = true.
Proof.
  induction s as [|c s IH]; simpl; [trivial|].
  intros [Hc Hs]%andb_prop. specialize (IH Hs).
  destruct (PyStr.rstrip s) as [|c' r].
  - destruct (PyStr.isspace c); simpl; [reflexivity|]. now rewrite Hc.
  - cbn [PyStr.forallb] in *. now rewrite Hc, IH.
Qed.

Lemma forallb_strip p s :
  PyStr.forallb p s = true -> PyStr.forallb p (PyStr.strip s) = true.
Proof. intros H. unfold PyStr.strip. now apply forallb_rstrip, forallb_lstrip. Qed.

Lemma strip_separators_plain s :
  PyStr.forallb blank_or_visible s = true ->
  PyStr.forallb plain (strip_separators s) = true.
Proof.
  induction s as [|c s IH]; simpl; [trivial|].
  intros [Hc Hs]%andb_prop. specialize (IH Hs).
  destruct (is_separator c) eqn:Esep; [exact IH|].
  simpl. rewrite IH, andb_true_r.
  unfold plain. rewrite Esep. simpl. rewrite andb_true_r.
  unfold blank_or_visible in Hc. unfold is_separator in Esep.
  destruct (Ascii.eqb c " "); [discriminate|].
  now rewrite orb_false_r in Hc.
Qed.

Lemma plain_rstrip s : PyStr.forallb plain s = true -> PyStr.rstrip s = s.
Proof.
  induction s as [|c s IH]; simpl; [trivial|].
  intros [Hc Hs]%andb_prop. rewrite (IH Hs).
  destruct s as [|c' s']; [|reflexivity].
  unfold plain in Hc. now destruct (PyStr.isspace c).
Qed.

Lemma normalize_e164_some cc s :
  normalize_e164 cc (Some s) = Some (normalize_contract cc s).
Proof.
  destruct s as [|c s]; [reflexivity|].
  unfold normalize_e164, normalize_contract.
  rewrite remove_separators_fold.
  now destruct (PyStr.startswith "+" _).
Qed.


(** C10, as stated, fails: with the default code [+91] the input
    [+1<TAB>-] normalises to [+1<TAB>], and normalising that again gives
    [+1]. *)
Lemma normalize_e164_not_idempotent :
  let s := "+1" +:+ String (ascii_of_nat 9) "-" in
  PyStr.startswith "+" "+91" = true
  /\ normalize_e164 "+91" (normalize_e164 "+91" (Some s))
     <> normalize_e164 "+91" (Some s).
Proof. split; [reflexivity|]. vm_compute. discriminate. Qed.

Lemma forallb_impl (p q : ascii -> bool) s :
  (forall c, p c = true -> q c = true) ->
  PyStr.forallb p s = true -> PyStr.forallb q s = true.
Proof.
  intros Hpq. induction s as [|c s IH]; simpl; [trivial|].
  intros [Hc Hs]%andb_prop. now rewrite (Hpq _ Hc), IH.
Qed.

Lemma strip_separators_clean s :
  PyStr.forallb (fun c => negb (is_separator c)) (strip_separators s) = true.
Proof.
  induction s as [|c s IH]; simpl; [reflexivity|].
  destruct (is_separator c) eqn:E; [exact IH|]. simpl. now rewrite E, IH.
Qed.

Lemma clean_strip_separators s :
  PyStr.forallb (fun c => negb (is_separator c)) s = true -> strip_separators s = s.
Proof.
  induction s as [|c s IH]; simpl; [trivial|].
  intros [Hc Hs]%andb_prop. rewrite (IH Hs).
  now destruct (is_separator c).
Qed.

Lemma plus_lstrip s : PyStr.startswith "+" s = true -> PyStr.lstrip s = s.
Proof.
  destruct s as [|c s]; simpl; [discriminate|].
  now intros ->%Ascii.eqb_eq.
Qed.

Lemma plus_rstrip s :
  PyStr.startswith "+" s = true -> PyStr.startswith "+" (PyStr.rstrip s) = true.
Proof.
  destruct s as [|c s]; simpl; [discriminate|].
  intros Hc. pose proof Hc as ->%Ascii.eqb_eq.
  now destruct (PyStr.rstrip s).
Qed.

Lemma startswith_append c a b :
  PyStr.startswith c a = true -> PyStr.startswith c (a +:+ b) = true.
Proof. now destruct a. Qed.

(** A second normalisation only trims the right end of the first result. *)
Lemma normalize_contract_twice cc s :
  PyStr.startswith "+" cc = true ->
  PyStr.forallb plain cc = true ->
  normalize_contract cc (normalize_contract cc s)
  = PyStr.rstrip (normalize_contract cc s).
Proof.
  intros Hcc Hplain.
  destruct s as [|c s]; [reflexivity|].
  set (r := normalize_contract cc (String c s)).
  assert (Hclean : PyStr.forallb (fun c => negb (is_separator c)) r = true).
  { unfold r, normalize_contract.
    destruct (PyStr.startswith "+" (strip_separators _)); rewrite ?forallb_append;
      rewrite strip_separators_clean; [reflexivity|].
    rewrite andb_true_r. revert Hplain. apply forallb_impl.
    unfold plain. now intros c0 [_ ?]%andb_prop. }
  assert (Hplus : PyStr.startswith "+" r = true).
  { unfold r, normalize_contract.
    destruct (PyStr.startswith "+" (strip_separators _)) eqn:E; [exact E|].
    now apply startswith_append. }
  destruct r as [|c0 r0] eqn:Er; [discriminate|]. rewrite <- Er in *.
  replace (normalize_contract cc r)
    with (let n := strip_separators (PyStr.strip r) in
          if PyStr.startswith "+" n then n else cc +:+ n)
    by now rewrite Er.
  cbn zeta. unfold PyStr.strip. rewrite (plus_lstrip _ Hplus).
  rewrite (clean_strip_separators (PyStr.rstrip r))
    by now apply forallb_rstrip.
  now rewrite (plus_rstrip _ Hplus).
Qed.

(** C10, amended. When the default country code begins with [+] and holds
    no white space, hyphen or parenthesis, normalising twice equals
    normalising once exactly on the inputs whose normalised form does not
    end in white space; that is the case of every input whose only
    white-space characters are blanks. *)
Theorem normalize_e164_idempotent cc s :
  PyStr.startswith "+" cc = true ->
  PyStr.forallb plain cc = true ->
  (normalize_e164 cc (normalize_e164 cc (Some s)) = normalize_e164 cc (Some s)
   <-> PyStr.rstrip (normalize_contract cc s) = normalize_contract cc s)
  /\ (PyStr.forallb blank_or_visible s = true ->
      normalize_e164 cc (normalize_e164 cc (Some s)) = normalize_e164 cc (Some s)).
Proof.
  intros Hcc Hplain.
  rewrite (normalize_e164_some cc s), normalize_e164_some,
    (normalize_contract_twice _ _ Hcc Hplain).
  split; [split; [now intros [= ->]|now intros ->]|].
  intros Hs. f_equal. apply plain_rstrip.
  destruct s as [|c s]; [reflexivity|].
  set (n := strip_separators (PyStr.strip (String c s))).
  assert (Hn : PyStr.forallb plain n = true)
    by now apply strip_separators_plain, forallb_strip.
  replace (normalize_contract cc (String c s))
    with (if PyStr.startswith "+" n then n else cc +:+ n) by reflexivity.
  destruct (PyStr.startswith "+" n); [exact Hn|].
  now rewrite forallb_append, Hplain, Hn.
Qed.

Lemma normalize_e164_idempotent_witness :
  let s := " (987) 65-43210 " in
  PyStr.startswith "+" "+91" = true
  /\ PyStr.forallb plain "+91" = true
  /\ PyStr.forallb blank_or_visible s = true
  /\ normalize_e164 "+91" (normalize_e164 "+91" (Some s))
     = normalize_e164 "+91" (Some s).
Proof.
  intros s. split; [reflexivity|]. split; [reflexivity|]. split; [reflexivity|].
  apply (proj2 (normalize_e164_idempotent "+91" s eq_refl eq_refl)). reflexivity.
Defined.

(** ** Date/time resolution *)

Section ParserFacts.

Import DateTime.

Lemma digit_is_digit c v : digit c = Some v -> is_digit c = true.
Proof. unfold digit. now destruct (is_digit c). Qed.

Lemma num2_digits a b v :
  num2 a b = Some v -> is_digit a = true /\ is_digit b = true.
Proof.
  unfold num2. destruct (digit a) eqn:Ea; [|discriminate].
  destruct (digit b) eqn:Eb; [|discriminate].
  eauto using digit_is_digit.
Qed.

Lemma num4_digits a b c d v :
  num4 a b c d = Some v ->
  is_digit a = true /\ is_digit b = true /\ is_digit c = true /\ is_digit d = true.
Proof.
  unfold num4. destruct (num2 a b) eqn:E1; [|discriminate].
  destruct (num2 c d) eqn:E2; [|discriminate].
  apply num2_digits in E1, E2. tauto.
Qed.

Lemma digit_dmy_char c : is_digit c = true -> dmy_char c = true.
Proof. unfold dmy_char. now intros ->. Qed.

Lemma space_dmy_char c : PyStr.isspace c = true -> dmy_char c = true.
Proof. unfold dmy_char. intros ->. now rewrite !orb_true_r. Qed.

Lemma sep_dmy_char c : Ascii.eqb c "/" || Ascii.eqb c ":" = true -> dmy_char c = true.
Proof.
  unfold dmy_char. intros [->| ->]%orb_prop; now rewrite ?orb_true_r.
Qed.

Lemma nonzero_digit_char a v : nonzero_digit a = Some v -> dmy_char a = true.
Proof.
  unfold nonzero_digit. destruct (between "1" "9" a); [|discriminate].
  eauto using digit_dmy_char, digit_is_digit.
Qed.

Lemma day_2_chars a b v :
  day_2 a b = Some v -> dmy_char a = true /\ dmy_char b = true.
Proof.
  unfold day_2.
  repeat match goal with
         | |- context [if ?c then _ else _] => destruct c eqn:?
         end; try discriminate.
  1-3: intros [??]%num2_digits; auto using digit_dmy_char.
  intros H%digit_is_digit. split; [|auto using digit_dmy_char].
  apply andb_prop in Heqb3 as [->%Ascii.eqb_eq _]. reflexivity.
Qed.

Lemma month_2_chars a b v :
  month_2 a b = Some v -> dmy_char a = true /\ dmy_char b = true.
Proof.
  unfold month_2.
  repeat match goal with
         | |- context [if ?c then _ else _] => destruct c eqn:?
         end; try discriminate;
    intros [??]%num2_digits; auto using digit_dmy_char.
Qed.

Lemma hour_2_chars a b v :
  hour_2 a b = Some v -> dmy_char a = true /\ dmy_char b = true.
Proof.
  unfold hour_2.
  repeat match goal with
         | |- context [if ?c then _ else _] => destruct c eqn:?
         end; try discriminate;
    intros [??]%num2_digits; auto using digit_dmy_char.
Qed.

(** A group consumes a prefix of pattern characters. *)
Lemma group_then_prefix sep one two s v r :
  Ascii.eqb sep "/" || Ascii.eqb sep ":" = true ->
  (forall a x, one a = Some x -> dmy_char a = true) ->
  (forall a b x, two a b = Some x -> dmy_char a = true /\ dmy_char b = true) ->
  group_then sep one two s = Some (v, r) ->
  exists pre, s = pre +:+ r /\ PyStr.forallb dmy_char pre = true.
Proof.
  intros Hsep Hone Htwo. unfold group_then.
  destruct s as [|a [|b s]]; try discriminate.
  destruct (Ascii.eqb b sep) eqn:Eb.
  - destruct (one a) eqn:Ea; [|discriminate]. intros [= <- <-].
    apply Ascii.eqb_eq in Eb as ->.
    exists (String a (String sep EmptyString)). split; [reflexivity|].
    simpl. rewrite (Hone _ _ Ea), (sep_dmy_char _ Hsep). reflexivity.
  - destruct s as [|c s]; [discriminate|].
    destruct (Ascii.eqb c sep) eqn:Ec; [|discriminate].
    destruct (two a b) eqn:Eab; [|discriminate]. intros [= <- <-].
    apply Ascii.eqb_eq in Ec as ->. destruct (Htwo _ _ _ Eab) as [Ha Hb].
    exists (String a (String b (String sep EmptyString))). split; [reflexivity|].
    simpl. rewrite Ha, Hb, (sep_dmy_char _ Hsep). reflexivity.
Qed.

Lemma match_year_prefix s v r :
  match_year s = Some (v, r) ->
  exists pre, s = pre +:+ r /\ PyStr.forallb dmy_char pre = true.
Proof.
  unfold match_year. destruct s as [|a [|b [|c [|d s]]]]; try discriminate.
  destruct (num4 a b c d) eqn:E; [|discriminate]. intros [= <- <-].
  apply num4_digits in E as (Ha & Hb & Hc & Hd).
  exists (String a (String b (String c (String d EmptyString)))).
  split; [reflexivity|]. simpl.
  now rewrite !digit_dmy_char.
Qed.

Lemma lstrip_prefix s :
  exists pre, s = pre +:+ PyStr.lstrip s /\ PyStr.forallb dmy_char pre = true.
Proof.
  induction s as [|c s (pre & Hs & Hpre)]; simpl.
  - now exists EmptyString.
  - destruct (PyStr.isspace c) eqn:Ec.
    + exists (String c pre). simpl. rewrite (space_dmy_char _ Ec), Hpre.
      split; [exact (f_equal (String c) Hs)|reflexivity].
    + now exists EmptyString.
Qed.

Lemma match_spaces_prefix s r :
  match_spaces s = Some r ->
  exists pre, s = pre +:+ r /\ PyStr.forallb dmy_char pre = true.
Proof.
  unfold match_spaces. destruct s as [|c s]; [discriminate|].
  destruct (PyStr.isspace c) eqn:Ec; [|discriminate]. intros [= <-].
  destruct (lstrip_prefix s) as (pre & Hs & Hpre).
  exists (String c pre). simpl. rewrite (space_dmy_char _ Ec), Hpre.
  split; [exact (f_equal (String c) Hs)|reflexivity].
Qed.

Lemma match_minute_end_chars s v :
  match_minute_end s = Some v -> PyStr.forallb dmy_char s = true.
Proof.
  unfold match_minute_end. destruct s as [|a [|b [|c s]]]; try discriminate.
  - intros H%digit_is_digit. simpl. now rewrite digit_dmy_char.
  - destruct (between "0" "5" a && is_digit b); [|discriminate].
    intros [Ha Hb]%num2_digits. simpl. now rewrite !digit_dmy_char.
Qed.

(** Whatever the pattern accepts consists of pattern characters only. *)
Lemma strptime_chars s dt :
  strptime_dmY_HM s = Some dt -> PyStr.forallb dmy_char s = true.
Proof.
  unfold strptime_dmY_HM. intros H.
  destruct (match_day s) as [[d s1]|] eqn:E1; simpl in H; [|discriminate].
  destruct (match_month s1) as [[m s2]|] eqn:E2; simpl in H; [|discriminate].
  destruct (match_year s2) as [[y s3]|] eqn:E3; simpl in H; [|discriminate].
  destruct (match_spaces s3) as [s4|] eqn:E4; simpl in H; [|discriminate].
  destruct (match_hour s4) as [[h s5]|] eqn:E5; simpl in H; [|discriminate].
  destruct (match_minute_end s5) as [mi|] eqn:E6; simpl in H; [|discriminate].
  apply group_then_prefix in E1 as (p1 & -> & H1);
    [|reflexivity|exact nonzero_digit_char|exact day_2_chars].
  apply group_then_prefix in E2 as (p2 & -> & H2);
    [|reflexivity|exact nonzero_digit_char|exact month_2_chars].
  apply match_year_prefix in E3 as (p3 & -> & H3).
  apply match_spaces_prefix in E4 as (p4 & -> & H4).
  apply group_then_prefix in E5 as (p5 & -> & H5);
    [|reflexivity|intros a x Ha; eauto using digit_dmy_char, digit_is_digit
     |exact hour_2_chars].
  apply match_minute_end_chars in E6.
  now rewrite !forallb_append, H1, H2, H3, H4, H5, E6.
Qed.

(** The pattern never accepts a string with a [T] in it. *)
Lemma strptime_rejects_T d t :
  strptime_dmY_HM (d +:+ "T" +:+ t) = None.
Proof.
  destruct (strptime_dmY_HM (d +:+ "T" +:+ t)) eqn:E; [|reflexivity].
  apply strptime_chars in E. rewrite forallb_append in E.
  apply andb_prop in E as [_ E]. simpl in E. discriminate.
Qed.

Lemma strptime_slash s dt : strptime_dmY_HM s = Some dt -> slash_early s = true.
Proof.
  unfold strptime_dmY_HM, match_day, group_then, slash_early. intros H.
  destruct s as [|a [|b s]]; try discriminate.
  destruct (Ascii.eqb b "/"); [reflexivity|].
  destruct s as [|c s]; [discriminate|].
  destruct (Ascii.eqb c "/"); [reflexivity|discriminate].
Qed.

Lemma slash_not_digit c : Ascii.eqb c "/" = true -> digit c = None.
Proof. now intros ->%Ascii.eqb_eq. Qed.

(** The ISO form starts with the four digits of the year. *)
Lemma fromisoformat_no_slash s : slash_early s = true -> fromisoformat s = None.
Proof.
  unfold slash_early, fromisoformat.
  destruct s as [|y1 [|y2 [|y3 [|y4 [|c4 [|m1 [|m2 [|c7 [|d1 [|d2 rest]]]]]]]]]];
    try reflexivity.
  intros H. destruct (negb _); [reflexivity|].
  destruct (num4 y1 y2 y3 y4) eqn:E; [|reflexivity].
  apply num4_digits in E as (_ & H2 & H3 & _).
  apply orb_prop in H as [H|H]; apply slash_not_digit in H;
    unfold digit in H; rewrite ?H2, ?H3 in H; discriminate.
Qed.

(** Swapping the blank between date and time for a [T] keeps an early [/]. *)
Lemma slash_early_T d t :
  slash_early (d +:+ " " +:+ t) = true -> slash_early (d +:+ "T" +:+ t) = true.
Proof.
  destruct d as [|a [|b [|c d]]]; simpl; intros H; exact H.
Qed.

Lemma strptime_excludes_iso_T d t dt :
  strptime_dmY_HM (d +:+ " " +:+ t) = Some dt ->
  fromisoformat (d +:+ "T" +:+ t) = None.
Proof.
  intros H. apply fromisoformat_no_slash, slash_early_T.
  eauto using strptime_slash.
Qed.

End ParserFacts.

Lemma try_parse_datetime_stated_order d t :
  try_parse_datetime d t = resolve_in_stated_order d t.
Proof.
  unfold try_parse_datetime, try_parse_datetime_with, resolve_in_stated_order.
  destruct d as [[|c d]|]; try reflexivity.
  destruct t as [[|c' t]|]; try reflexivity.
  cbn [PyStr.truthy negb orb PyStr.fmt first_parsed].
  set (d' := String c d). set (t' := String c' t).
  destruct (DateTime.fromisoformat (d' +:+ " " +:+ t')); [reflexivity|].
  destruct (DateTime.strptime_dmY_HM (d' +:+ " " +:+ t')) eqn:E.
  - now rewrite (strptime_excludes_iso_T _ _ _ E).
  - rewrite strptime_rejects_T.
    now destruct (DateTime.fromisoformat (d' +:+ "T" +:+ t')).
Qed.

(** C6. Resolution gives, on every input, the result of trying the
    [date time] form, then the [date"T"time] form, then the
    [DD/MM/YYYY HH:MM] fallback, the first that parses winning; a missing
    date or time is unparseable whatever the parsers would accept; and the
    three worked inputs resolve as stated, the unparseable one being passed
    over by the scan without ending it. *)
Theorem try_parse_datetime_resolution :
  (forall d t, try_parse_datetime d t = resolve_in_stated_order d t)
  /\ (forall iso dmy x,
        try_parse_datetime_with iso dmy None x = None
        /\ try_parse_datetime_with iso dmy (Some "") x = None
        /\ try_parse_datetime_with iso dmy x None = None
        /\ try_parse_datetime_with iso dmy x (Some "") = None)
  /\ try_parse_datetime (Some "2024-05-01") (Some "09:30")
     = Some (DateTime.mkdatetime 2024 5 1 9 30 0 0 None)
  /\ DateTime.fromisoformat "01/05/2024 09:30" = None
  /\ try_parse_datetime (Some "01/05/2024") (Some "09:30")
     = Some (DateTime.mkdatetime 2024 5 1 9 30 0 0 None)
  /\ try_parse_datetime (Some "not-a-date") (Some "09:30") = None
  /\ (forall cfg env coll p uid num msg,
        reminder_step cfg env coll p uid num
          (mkReminder (Some "not-a-date") (Some "09:30") msg None None)
        = (coll, [Parsed p None], false)).
Proof.
  split; [exact try_parse_datetime_stated_order|].
  split.
  { intros iso dmy x. unfold try_parse_datetime_with.
    repeat split; try reflexivity; destruct x as [[|]|]; reflexivity. }
  repeat split; reflexivity.
Qed.

(** ** The mark-called write *)

Lemma elem_matches_identifies reminder r' :
  elem_matches reminder r' = true <-> identifies reminder r'.
Proof.
  unfold elem_matches, identifies. destruct (createdAt reminder).
  - apply bool_decide_eq_true.
  - rewrite !andb_true_iff, !bool_decide_eq_true. tauto.
Qed.

Lemma doc_matches_spec user_id reminder u :
  doc_matches user_id reminder u = true <->
  userId u = user_id
  /\ exists j r', reminders u !! j = Some r' /\ identifies reminder r'.
Proof.
  unfold doc_matches.
  rewrite andb_true_iff, bool_decide_eq_true, existsb_exists.
  split; intros [Hu H]; (split; [exact Hu|]).
  - destruct H as (r' & Hin & Hm).
    apply list_elem_of_In, list_elem_of_lookup in Hin as [j Hj].
    exists j, r'. now rewrite <- elem_matches_identifies.
  - destruct H as (j & r' & Hj & Hm). exists r'. split.
    + apply list_elem_of_In, list_elem_of_lookup. eauto.
    + now apply elem_matches_identifies.
Qed.

Lemma reminder_at_stamped (coll : Collection) i j u r' x q :
  coll !! i = Some u -> reminders u !! j = Some r' ->
  reminder_at (<[i := set_reminders u (<[j := x]> (reminders u))]> coll) q
  = if decide (q = (i, j)) then Some x else reminder_at coll q.
Proof.
  intros Hu Hr. destruct q as [i' j']. unfold reminder_at. simpl.
  destruct (decide (i' = i)) as [->|Hi].
  - rewrite list_lookup_insert_eq by eauto using lookup_lt_Some.
    rewrite Hu. simpl.
    destruct (decide (j' = j)) as [->|Hj].
    + rewrite list_lookup_insert_eq by eauto using lookup_lt_Some.
      now rewrite decide_True.
    + rewrite list_lookup_insert_ne by congruence.
      rewrite decide_False by congruence. reflexivity.
  - rewrite list_lookup_insert_ne by congruence.
    rewrite decide_False by congruence. reflexivity.
Qed.

Lemma forget_stamped (coll : Collection) i j u r' stamp :
  coll !! i = Some u -> reminders u !! j = Some r' ->
  forget_calledAt
    (<[i := set_reminders u (<[j := set_calledAt r' stamp]> (reminders u))]> coll)
  = forget_calledAt coll.
Proof.
  intros Hu Hr. unfold forget_calledAt.
  rewrite list_fmap_insert. apply list_insert_id.
  rewrite list_lookup_fmap, Hu. simpl. f_equal.
  unfold set_reminders. simpl. f_equal.
  rewrite list_fmap_insert. symmetry. apply list_insert_id.
  now rewrite list_lookup_fmap, Hr.
Qed.

(** What a hit of the write means. *)
Lemma mark_called_hit coll user_id reminder stamp coll' i j :
  mark_called coll user_id reminder stamp = (coll', Some (i, j)) ->
  exists u r',
    coll !! i = Some u /\ reminders u !! j = Some r'
    /\ doc_matches user_id reminder u = true
    /\ elem_matches reminder r' = true
    /\ (forall i' u', coll !! i' = Some u' -> i' < i ->
          doc_matches user_id reminder u' <> true)
    /\ (forall j' r'', reminders u !! j' = Some r'' -> j' < j ->
          elem_matches reminder r'' <> true)
    /\ coll' = <[i := set_reminders u (<[j := set_calledAt r' stamp]> (reminders u))]> coll.
Proof.
  unfold mark_called.
  destruct (list_find _ coll) as [[i0 u]|] eqn:Edoc; [|discriminate].
  destruct (list_find _ (reminders u)) as [[j0 r']|] eqn:Eelem; [|discriminate].
  intros [= <- <- <-].
  apply list_find_Some in Edoc as (Hu & Hdoc & Hfirst).
  apply list_find_Some in Eelem as (Hr & Helem & Hfirst').
  exists u, r'. repeat split; auto using Is_true_true_1.
  - intros i' u' Hi' Hlt H. eapply Hfirst; eauto using Is_true_true_2.
  - intros j' r'' Hj' Hlt H. eapply Hfirst'; eauto using Is_true_true_2.
Qed.

Lemma mark_called_miss coll user_id reminder stamp coll' :
  mark_called coll user_id reminder stamp = (coll', None) ->
  coll' = coll
  /\ forall u, u ∈ coll -> doc_matches user_id reminder u <> true.
Proof.
  unfold mark_called.
  destruct (list_find _ coll) as [[i0 u]|] eqn:Edoc.
  - destruct (list_find _ (reminders u)) as [[j0 r']|] eqn:Eelem; [discriminate|].
    intros [= <-]. exfalso.
    apply list_find_Some in Edoc as (Hu & Hdoc & _).
    apply Is_true_true_1, doc_matches_spec in Hdoc as (_ & j & r' & Hj & Hid).
    rewrite list_find_None, Forall_lookup in Eelem.
    apply (Eelem _ _ Hj). now apply Is_true_true_2, elem_matches_identifies.
  - intros [= <-]. split; [reflexivity|].
    rewrite list_find_None, Forall_forall in Edoc.
    intros u Hin H. apply (Edoc u Hin). now apply Is_true_true_2.
Qed.

Lemma mark_called_reminder_at coll user_id reminder stamp coll' hit q :
  mark_called coll user_id reminder stamp = (coll', hit) ->
  hit <> Some q -> reminder_at coll' q = reminder_at coll q.
Proof.
  destruct hit as [[i j]|]; intros H Hq.
  - apply mark_called_hit in H as (u & r' & Hu & Hr & _ & _ & _ & _ & ->).
    rewrite (reminder_at_stamped _ _ _ _ _ _ _ Hu Hr).
    rewrite decide_False; congruence.
  - now apply mark_called_miss in H as [-> _].
Qed.

Lemma mark_called_evolves coll user_id reminder stamp :
  evolves coll (mark_called coll user_id reminder stamp).1.
Proof.
  destruct (mark_called coll user_id reminder stamp) as [coll' [[i j]|]] eqn:E; simpl.
  - apply mark_called_hit in E as (u & r' & Hu & Hr & _ & _ & _ & _ & ->).
    split; [now apply forget_stamped|].
    intros q. unfold calledAt_at.
    rewrite (reminder_at_stamped _ _ _ _ _ _ _ Hu Hr).
    destruct (decide _); [intros _; simpl; eauto|trivial].
  - apply mark_called_miss in E as [-> _]. now split.
Qed.

Lemma mark_called_stamps coll user_id reminder stamp coll' q :
  mark_called coll user_id reminder stamp = (coll', Some q) ->
  calledAt_at coll' q = Some stamp.
Proof.
  destruct q as [i j].
  intros (u & r' & Hu & Hr & _ & _ & _ & _ & ->)%mark_called_hit.
  unfold calledAt_at. rewrite (reminder_at_stamped _ _ _ _ _ _ _ Hu Hr).
  now rewrite decide_True.
Qed.

(** ** One loop body *)

Lemma evolves_refl coll : evolves coll coll.
Proof. now split. Qed.

Lemma evolves_trans a b c : evolves a b -> evolves b c -> evolves a c.
Proof. intros [H1 H2] [H3 H4]. split; [congruence|auto]. Qed.

(** The four ways the [try] block can go. *)
Lemma dispatch_cases cfg env coll p uid num r :
  let to_num := normalize_e164 (DEFAULT_COUNTRY_CODE cfg) num in
  let msg := reminder_text r in
  let res := dispatch cfg env coll p uid num r in
  (provider_configured cfg = false /\ res = (coll, [Printed (CallFailed uid)]))
  \/ (provider_configured cfg = true /\ call_ok env p = false
      /\ res = (coll, [ProviderCall p to_num msg false; Printed (CallFailed uid)]))
  \/ (provider_configured cfg = true /\ call_ok env p = true /\ mark_ok env p = false
      /\ res = (coll, [ProviderCall p to_num msg true; MarkRaised p;
                       Printed (CallFailed uid)]))
  \/ (provider_configured cfg = true /\ call_ok env p = true /\ mark_ok env p = true
      /\ res = ((mark_called coll uid r (utcnow env p)).1,
                [ProviderCall p to_num msg true;
                 MarkWrite p (mark_called coll uid r (utcnow env p)).2])).
Proof.
  unfold dispatch, call_phone.
  destruct (provider_configured cfg); simpl; [|now left].
  destruct (call_ok env p); simpl; [|right; left; auto].
  destruct (mark_ok env p); simpl; [|right; right; left; auto].
  right; right; right.
  now destruct (mark_called coll uid r (utcnow env p)).
Qed.

(** The five ways the loop body can go. *)
Lemma reminder_step_cases cfg env coll p uid num r :
  let res := reminder_step cfg env coll p uid num r in
  (is_Some (calledAt r) /\ res = (coll, [], false))
  \/ (calledAt r = None /\ try_parse_datetime (date r) (time r) = None
      /\ res = (coll, [Parsed p None], false))
  \/ (exists dt, calledAt r = None
      /\ try_parse_datetime (date r) (time r) = Some dt
      /\ DateTime.sub (now env) dt = None
      /\ res = (coll, [Parsed p (Some dt)], true))
  \/ (exists dt diff, calledAt r = None
      /\ try_parse_datetime (date r) (time r) = Some dt
      /\ DateTime.sub (now env) dt = Some diff
      /\ in_window cfg diff = false
      /\ res = (coll, [Parsed p (Some dt); Classified p diff false], false))
  \/ (exists dt diff, calledAt r = None
      /\ try_parse_datetime (date r) (time r) = Some dt
      /\ DateTime.sub (now env) dt = Some diff
      /\ in_window cfg diff = true
      /\ res = ((dispatch cfg env coll p uid num r).1,
                Parsed p (Some dt) :: Classified p diff true
                  :: (dispatch cfg env coll p uid num r).2, false)).
Proof.
  unfold reminder_step.
  destruct (calledAt r) eqn:Ec; [left; eauto|].
  destruct (try_parse_datetime _ _) as [dt|] eqn:Ep; [|right; left; auto].
  destruct (DateTime.sub _ _) as [diff|] eqn:Es; [|right; right; left; eauto].
  destruct (in_window cfg diff) eqn:E.
  - do 4 right. exists dt, diff.
    destruct (dispatch cfg env coll p uid num r). repeat split; auto.
  - do 3 right. left. eauto 10.
Qed.

Ltac step_cases cfg env coll p uid num r :=
  let Hc := fresh "Hcalled" in
  let Hp := fresh "Hparse" in
  let Hs := fresh "Hsub" in
  let Hw := fresh "Hwin" in
  let Hr := fresh "Hres" in
  let dt := fresh "dt" in
  let diff := fresh "diff" in
  destruct (reminder_step_cases cfg env coll p uid num r)
    as [(Hc & Hr)|[(Hc & Hp & Hr)|[(dt & Hc & Hp & Hs & Hr)
       |[(dt & diff & Hc & Hp & Hs & Hw & Hr)
        |(dt & diff & Hc & Hp & Hs & Hw & Hr)]]]].

Ltac dispatch_cases cfg env coll p uid num r :=
  let Hcfg := fresh "Hcfg" in
  let Hcall := fresh "Hcall" in
  let Hmark := fresh "Hmark" in
  let Hd := fresh "Hdisp" in
  destruct (dispatch_cases cfg env coll p uid num r)
    as [(Hcfg & Hd)|[(Hcfg & Hcall & Hd)|[(Hcfg & Hcall & Hmark & Hd)
       |(Hcfg & Hcall & Hmark & Hd)]]].

(** Membership in a list written out. *)
Ltac in_list := repeat first [apply list_elem_of_here | apply list_elem_of_further].

Ltac list_cases H :=
  repeat (apply elem_of_cons in H; destruct H as [H|H]);
  try (apply elem_of_nil in H; destruct H);
  try discriminate H.

Lemma dispatch_evolves cfg env coll p uid num r :
  evolves coll (dispatch cfg env coll p uid num r).1.
Proof.
  dispatch_cases cfg env coll p uid num r; rewrite Hdisp; simpl;
    auto using evolves_refl, mark_called_evolves.
Qed.

Lemma reminder_step_evolves cfg env coll p uid num r :
  evolves coll (reminder_step cfg env coll p uid num r).1.1.
Proof.
  step_cases cfg env coll p uid num r; rewrite Hres; simpl;
    auto using evolves_refl, dispatch_evolves.
Qed.

(** A loop body run on a reminder already called does nothing. *)
Lemma reminder_step_called cfg env coll p uid num r :
  is_Some (calledAt r) ->
  reminder_step cfg env coll p uid num r = (coll, [], false).
Proof. intros [t Ht]. unfold reminder_step. now rewrite Ht. Qed.

(** Every event of a loop body is about its own reminder, or is the log
    line of the handler. *)
Lemma reminder_step_positions cfg env coll p uid num r e :
  e ∈ (reminder_step cfg env coll p uid num r).1.2 ->
  e = Printed (CallFailed uid)
  \/ match e with
     | Parsed q _ | Classified q _ _ | ProviderCall q _ _ _
     | MarkWrite q _ | MarkRaised q => q = p
     | _ => False
     end.
Proof.
  step_cases cfg env coll p uid num r; rewrite Hres; simpl; intros H.
  5: dispatch_cases cfg env coll p uid num r; rewrite Hdisp in H; simpl in H.
  all: list_cases H; subst; first [now left | now right].
Qed.

(** A provider call in a loop body: what it says about the reminder. *)
Lemma reminder_step_call cfg env coll p uid num r q to msg ok :
  ProviderCall q to msg ok ∈ (reminder_step cfg env coll p uid num r).1.2 ->
  q = p /\ calledAt r = None /\ provider_configured cfg = true
  /\ to = normalize_e164 (DEFAULT_COUNTRY_CODE cfg) num
  /\ msg = reminder_text r /\ ok = call_ok env p
  /\ exists dt diff,
       try_parse_datetime (date r) (time r) = Some dt
       /\ DateTime.sub (now env) dt = Some diff
       /\ in_window cfg diff = true.
Proof.
  step_cases cfg env coll p uid num r; rewrite Hres; simpl; intros H.
  5: dispatch_cases cfg env coll p uid num r; rewrite Hdisp in H; simpl in H.
  all: list_cases H; injection H as -> -> -> ->; rewrite ?Hcall; eauto 12.
Qed.

(** A reminder that is uncalled, resolved and inside the window gets its
    provider call. *)
Lemma reminder_step_due cfg env coll p uid num r dt diff :
  provider_configured cfg = true ->
  calledAt r = None ->
  try_parse_datetime (date r) (time r) = Some dt ->
  DateTime.sub (now env) dt = Some diff ->
  in_window cfg diff = true ->
  let res := reminder_step cfg env coll p uid num r in
  res.2 = false
  /\ ProviderCall p (normalize_e164 (DEFAULT_COUNTRY_CODE cfg) num)
       (reminder_text r) (call_ok env p) ∈ res.1.2
  /\ (call_ok env p = true -> mark_ok env p = true ->
      MarkWrite p (mark_called coll uid r (utcnow env p)).2 ∈ res.1.2
      /\ res.1.1 = (mark_called coll uid r (utcnow env p)).1).
Proof.
  intros Hcfg Hc Hp Hs Hw. unfold reminder_step. rewrite Hc, Hp, Hs, Hw.
  unfold dispatch, call_phone. rewrite Hcfg. simpl.
  destruct (call_ok env p); simpl.
  - destruct (mark_ok env p); simpl.
    + destruct (mark_called coll uid r (utcnow env p)); simpl.
      split; [reflexivity|]. split; [in_list|]. intros _ _. split; [in_list|reflexivity].
    + split; [reflexivity|]. split; [in_list|]. discriminate.
  - split; [reflexivity|]. split; [in_list|]. discriminate.
Qed.

(** A mark-called write in a loop body follows a successful provider call
    of the same body and is the write [mark_called] makes. *)
Lemma reminder_step_mark cfg env coll p uid num r q hit :
  MarkWrite q hit ∈ (reminder_step cfg env coll p uid num r).1.2 ->
  q = p /\ call_ok env p = true
  /\ (exists to msg,
        ProviderCall p to msg true ∈ (reminder_step cfg env coll p uid num r).1.2)
  /\ hit = (mark_called coll uid r (utcnow env p)).2.
Proof.
  step_cases cfg env coll p uid num r; rewrite Hres; simpl; intros H.
  5: dispatch_cases cfg env coll p uid num r; rewrite Hdisp in H |- *;
     simpl in H |- *.
  all: list_cases H.
  injection H as -> ->. repeat split; auto.
  eexists _, _. in_list.
Qed.

(** A [calledAt] that a loop body changed was written by its mark-called
    write. *)
Lemma reminder_step_change cfg env coll p uid num r q :
  calledAt_at (reminder_step cfg env coll p uid num r).1.1 q <> calledAt_at coll q ->
  MarkWrite p (Some q) ∈ (reminder_step cfg env coll p uid num r).1.2.
Proof.
  step_cases cfg env coll p uid num r; rewrite Hres; simpl; try congruence.
  dispatch_cases cfg env coll p uid num r; rewrite Hdisp; simpl; try congruence.
  intros Hne.
  destruct (mark_called coll uid r (utcnow env p)) as [coll' hit] eqn:E. simpl in *.
  destruct (decide (hit = Some q)) as [->|Hq]; [in_list|].
  exfalso. apply Hne. unfold calledAt_at.
  now rewrite (mark_called_reminder_at _ _ _ _ _ _ _ E Hq).
Qed.

(** At most one provider call per loop body, and for its own reminder. *)
Lemma reminder_step_call_positions cfg env coll p uid num r :
  call_positions (reminder_step cfg env coll p uid num r).1.2 `sublist_of` [p].
Proof.
  step_cases cfg env coll p uid num r; rewrite Hres; simpl;
    try apply sublist_nil_l.
  dispatch_cases cfg env coll p uid num r; rewrite Hdisp; simpl;
    try apply sublist_nil_l; reflexivity.
Qed.

(** What the loop body examines and attempts, and whether it raises, is
    settled by the clock alone. *)
Lemma reminder_step_outline cfg env env' coll coll' p uid num r :
  now env = now env' ->
  outline (reminder_step cfg env coll p uid num r).1.2
  = outline (reminder_step cfg env' coll' p uid num r).1.2
  /\ (reminder_step cfg env coll p uid num r).2
     = (reminder_step cfg env' coll' p uid num r).2.
Proof.
  intros Hnow. unfold reminder_step. rewrite Hnow.
  destruct (calledAt r); [now split|].
  destruct (try_parse_datetime _ _) as [dt|]; [|now split].
  destruct (DateTime.sub _ _) as [diff|]; [|now split].
  destruct (in_window cfg diff); [|now split].
  dispatch_cases cfg env coll p uid num r;
    dispatch_cases cfg env' coll' p uid num r;
    rewrite Hdisp, Hdisp0; try congruence; simpl; now split.
Qed.

(** The loop body raises only on an aware resolved instant. *)
Lemma reminder_step_raised cfg env coll p uid num r :
  (reminder_step cfg env coll p uid num r).2 = true ->
  exists dt, try_parse_datetime (date r) (time r) = Some dt
    /\ DateTime.sub (now env) dt = None
    /\ Parsed p (Some dt) ∈ (reminder_step cfg env coll p uid num r).1.2.
Proof.
  step_cases cfg env coll p uid num r; rewrite Hres; simpl; try discriminate.
  intros _. exists dt. repeat split; auto. in_list.
Qed.

(** ** A sequence of loop bodies *)

Lemma run_jobs_cons cfg env j rest coll :
  run_jobs cfg env (j :: rest) coll =
  let s := run_job cfg env coll j in
  if s.2 then (s.1.1, s.1.2, true)
  else
    let t := run_jobs cfg env rest s.1.1 in
    (t.1.1, s.1.2 ++ t.1.2, t.2).
Proof.
  simpl. destruct (run_job cfg env coll j) as [[c1 e1] []]; simpl; [reflexivity|].
  now destruct (run_jobs cfg env rest c1) as [[c2 e2] r2].
Qed.

Lemma run_jobs_app cfg env a b coll :
  run_jobs cfg env (a ++ b) coll =
  let s := run_jobs cfg env a coll in
  if s.2 then (s.1.1, s.1.2, true)
  else
    let t := run_jobs cfg env b s.1.1 in
    (t.1.1, s.1.2 ++ t.1.2, t.2).
Proof.
  revert coll. induction a as [|j a IH]; intros coll.
  - simpl. now destruct (run_jobs cfg env b coll) as [[c e] r].
  - rewrite <- app_comm_cons, !run_jobs_cons. cbn zeta.
    destruct (run_job cfg env coll j).2; [reflexivity|].
    rewrite IH. cbn zeta.
    destruct (run_jobs cfg env a _).2; simpl; [reflexivity|].
    now rewrite app_assoc.
Qed.

Lemma scan_reminders_jobs cfg env ui uid num ri rem_list coll :
  scan_reminders cfg env ui uid num ri rem_list coll
  = run_jobs cfg env (jobs_from ui uid num ri rem_list) coll.
Proof.
  revert ri coll. induction rem_list as [|r rest IH]; intros ri coll; simpl;
    [reflexivity|].
  destruct (reminder_step cfg env coll (ui, ri) uid num r) as [[c1 e1] []];
    [reflexivity|].
  now rewrite IH.
Qed.

Lemma scan_users_jobs cfg env users coll :
  scan_users cfg env users coll = run_jobs cfg env (jobs users) coll.
Proof.
  revert coll. induction users as [|[ui u] rest IH]; intros coll; simpl;
    [reflexivity|].
  rewrite run_jobs_app, scan_reminders_jobs. cbn zeta.
  destruct (run_jobs cfg env (jobs_from _ _ _ _ _) coll) as [[c1 e1] []]; simpl;
    [reflexivity|].
  rewrite IH. now destruct (run_jobs cfg env (jobs rest) c1) as [[c2 e2] r2].
Qed.

Lemma run_jobs_evolves cfg env js coll :
  evolves coll (run_jobs cfg env js coll).1.1.
Proof.
  revert coll. induction js as [|[[[p uid] num] r] js IH]; intros coll;
    [apply evolves_refl|].
  rewrite run_jobs_cons. cbn zeta.
  pose proof (reminder_step_evolves cfg env coll p uid num r) as Hstep.
  unfold run_job. destruct (reminder_step cfg env coll p uid num r).2; simpl;
    [exact Hstep|].
  eapply evolves_trans; [exact Hstep|apply IH].
Qed.

(** Every event of a run comes from one of its loop bodies, all of whose
    events are in the run. *)
Lemma run_jobs_origin cfg env js coll e :
  e ∈ (run_jobs cfg env js coll).1.2 ->
  exists j c,
    j ∈ js /\ evolves coll c
    /\ e ∈ (run_job cfg env c j).1.2
    /\ (forall e', e' ∈ (run_job cfg env c j).1.2 ->
                   e' ∈ (run_jobs cfg env js coll).1.2)
    /\ evolves (run_job cfg env c j).1.1 (run_jobs cfg env js coll).1.1.
Proof.
  revert coll. induction js as [|j js IH]; intros coll.
  - simpl. intros H. now apply elem_of_nil in H.
  - rewrite run_jobs_cons. cbn zeta.
    pose proof (run_jobs_evolves cfg env js (run_job cfg env coll j).1.1) as Hrest.
    destruct (run_job cfg env coll j) as [[c1 e1] r1] eqn:Ej. simpl in Hrest |- *.
    assert (Hstep : evolves coll c1).
    { replace c1 with (run_job cfg env coll j).1.1 by now rewrite Ej.
      destruct j as [[[p uid] num] r]. apply reminder_step_evolves. }
    destruct r1; simpl.
    + intros He. exists j, coll. rewrite Ej. simpl.
      split; [apply list_elem_of_here|].
      split; [apply evolves_refl|]. split; [exact He|].
      split; [trivial|apply evolves_refl].
    + intros [He|He]%elem_of_app.
      * exists j, coll. rewrite Ej. simpl.
        split; [apply list_elem_of_here|].
        split; [apply evolves_refl|]. split; [exact He|].
        split; [|exact Hrest].
        intros e' He'. apply elem_of_app. now left.
      * destruct (IH _ He) as (j' & c & Hin & Hev & He' & Hsub & Hfin).
        exists j', c. split; [now apply list_elem_of_further|].
        split; [eapply evolves_trans; eassumption|].
        split; [assumption|]. split; [|assumption].
        intros e' He''. apply elem_of_app. right. auto.
Qed.

(** In a run that did not raise, every loop body was executed, did not
    raise, and left its events in the run. *)
Lemma run_jobs_reaches cfg env js coll j :
  (run_jobs cfg env js coll).2 = false ->
  j ∈ js ->
  exists c,
    evolves coll c
    /\ (run_job cfg env c j).2 = false
    /\ (forall e', e' ∈ (run_job cfg env c j).1.2 ->
                   e' ∈ (run_jobs cfg env js coll).1.2)
    /\ evolves (run_job cfg env c j).1.1 (run_jobs cfg env js coll).1.1.
Proof.
  revert coll. induction js as [|j0 js IH]; intros coll.
  - intros _ H. now apply elem_of_nil in H.
  - rewrite run_jobs_cons. cbn zeta.
    destruct (run_job cfg env coll j0) as [[c1 e1] r1] eqn:Ej. simpl.
    assert (Hstep : evolves coll c1).
    { replace c1 with (run_job cfg env coll j0).1.1 by now rewrite Ej.
      destruct j0 as [[[p uid] num] r]. apply reminder_step_evolves. }
    destruct r1; simpl; [discriminate|].
    intros Hr [->|Hin]%elem_of_cons.
    + exists coll. rewrite Ej. simpl.
      split; [apply evolves_refl|]. split; [reflexivity|].
      split; [|apply run_jobs_evolves].
      intros e' He'. apply elem_of_app. now left.
    + destruct (IH _ Hr Hin) as (c & Hev & Hnr & Hsub & Hev').
      exists c. split; [eapply evolves_trans; eassumption|].
      split; [assumption|]. split; [|assumption].
      intros e' He'. apply elem_of_app. right. auto.
Qed.

Lemma call_positions_app a b :
  call_positions (a ++ b) = call_positions a ++ call_positions b.
Proof. apply omap_app. Qed.

Lemma outline_app a b : outline (a ++ b) = outline a ++ outline b.
Proof. apply omap_app. Qed.

(** The provider calls of a run follow the order of its loop bodies, at
    most one each. *)
Lemma run_jobs_call_positions cfg env js coll :
  call_positions (run_jobs cfg env js coll).1.2 `sublist_of` (job_pos <$> js).
Proof.
  revert coll. induction js as [|[[[p uid] num] r] js IH]; intros coll;
    [reflexivity|].
  rewrite run_jobs_cons. cbn zeta. unfold run_job.
  pose proof (reminder_step_call_positions cfg env coll p uid num r) as Hstep.
  change (job_pos <$> (p, uid, num, r) :: js) with ([p] ++ (job_pos <$> js)).
  destruct (reminder_step cfg env coll p uid num r).2; simpl fst; simpl snd.
  - now apply sublist_inserts_r.
  - rewrite call_positions_app. apply sublist_app; [exact Hstep|apply IH].
Qed.

(** A [calledAt] that differs after a run was written by a mark-called
    write of that run, itself preceded by a successful provider call. *)
Lemma run_jobs_change cfg env js coll q :
  calledAt_at (run_jobs cfg env js coll).1.1 q <> calledAt_at coll q ->
  exists p to msg,
    MarkWrite p (Some q) ∈ (run_jobs cfg env js coll).1.2
    /\ ProviderCall p to msg true ∈ (run_jobs cfg env js coll).1.2.
Proof.
  revert coll. induction js as [|[[[p uid] num] r] js IH]; intros coll.
  - simpl. congruence.
  - rewrite run_jobs_cons. cbn zeta. unfold run_job.
    assert (Hhead :
      calledAt_at (reminder_step cfg env coll p uid num r).1.1 q <> calledAt_at coll q ->
      exists p' to msg,
        MarkWrite p' (Some q) ∈ (reminder_step cfg env coll p uid num r).1.2
        /\ ProviderCall p' to msg true ∈ (reminder_step cfg env coll p uid num r).1.2).
    { intros Hne. apply reminder_step_change in Hne.
      destruct (reminder_step_mark _ _ _ _ _ _ _ _ _ Hne) as (_ & _ & (to & msg & Hc) & _).
      eauto. }
    destruct (reminder_step cfg env coll p uid num r).2; simpl fst; simpl snd;
      [exact Hhead|].
    intros Hne.
    destruct (decide (calledAt_at (reminder_step cfg env coll p uid num r).1.1 q
                      = calledAt_at coll q)) as [Heq|Hne1].
    + rewrite <- Heq in Hne. destruct (IH _ Hne) as (p' & to & msg & H1 & H2).
      exists p', to, msg. split; apply elem_of_app; now right.
    + destruct (Hhead Hne1) as (p' & to & msg & H1 & H2).
      exists p', to, msg. split; apply elem_of_app; now left.
Qed.

(** What a run examines and attempts, and whether it raises, does not
    depend on the answers of the provider and the store. *)
Lemma run_jobs_outline cfg env env' js coll coll' :
  now env = now env' ->
  outline (run_jobs cfg env js coll).1.2 = outline (run_jobs cfg env' js coll').1.2
  /\ (run_jobs cfg env js coll).2 = (run_jobs cfg env' js coll').2.
Proof.
  intros Hnow. revert coll coll'.
  induction js as [|[[[p uid] num] r] js IH]; intros coll coll'; [now split|].
  rewrite !run_jobs_cons. cbn zeta. unfold run_job.
  destruct (reminder_step_outline cfg env env' coll coll' p uid num r Hnow)
    as [Ho Hr].
  rewrite <- Hr.
  destruct (reminder_step cfg env coll p uid num r).2; simpl fst; simpl snd;
    [now split|].
  rewrite !outline_app, Ho.
  destruct (IH (reminder_step cfg env coll p uid num r).1.1
               (reminder_step cfg env' coll' p uid num r).1.1) as [Ho' Hr'].
  now rewrite Ho', Hr'.
Qed.

(** A run raises only at a reminder whose resolved instant is aware. *)
Lemma run_jobs_raised cfg env js coll :
  (run_jobs cfg env js coll).2 = true ->
  exists p dt,
    Parsed p (Some dt) ∈ (run_jobs cfg env js coll).1.2
    /\ DateTime.sub (now env) dt = None.
Proof.
  revert coll. induction js as [|[[[p uid] num] r] js IH]; intros coll;
    [discriminate|].
  rewrite run_jobs_cons. cbn zeta. unfold run_job.
  destruct (reminder_step cfg env coll p uid num r).2 eqn:E; simpl fst; simpl snd.
  - intros _. destruct (reminder_step_raised _ _ _ _ _ _ _ E) as (dt & _ & Hs & Hin).
    eauto.
  - intros H. destruct (IH _ H) as (p' & dt & Hin & Hs).
    exists p', dt. split; [apply elem_of_app; now right|exact Hs].
Qed.

(** ** The snapshot of a pass *)

Lemma jobs_from_spec ui uid num ri rem_list j :
  j ∈ jobs_from ui uid num ri rem_list <->
  exists k r, rem_list !! k = Some r /\ j = ((ui, ri + k), uid, num, r).
Proof.
  revert ri. induction rem_list as [|r0 rest IH]; intros ri; simpl.
  - split; [intros H; now apply elem_of_nil in H|].
    intros (k & r & Hk & _). discriminate.
  - rewrite elem_of_cons, IH. split.
    + intros [->|(k & r & Hk & ->)].
      * exists 0, r0. split; [reflexivity|]. now rewrite Nat.add_0_r.
      * exists (S k), r. split; [exact Hk|]. now rewrite Nat.add_succ_r.
    + intros (k & r & Hk & ->). destruct k as [|k].
      * left. injection Hk as ->. now rewrite Nat.add_0_r.
      * right. exists k, r. split; [exact Hk|]. now rewrite Nat.add_succ_r.
Qed.

Lemma find_from_spec i coll ui u :
  (ui, u) ∈ find_from i coll <->
  exists k, ui = i + k /\ coll !! k = Some u /\ find_filter u = true.
Proof.
  revert i. induction coll as [|u0 rest IH]; intros i; simpl.
  - split; [intros H; now apply elem_of_nil in H|].
    intros (k & _ & Hk & _). discriminate.
  - assert (Htail : (ui, u) ∈ find_from (S i) rest <->
                    exists k, ui = i + S k /\ rest !! k = Some u /\ find_filter u = true).
    { rewrite IH. split; intros (k & -> & H); exists k;
        (split; [lia|exact H]). }
    destruct (find_filter u0) eqn:E; rewrite ?elem_of_cons, Htail; split.
    + intros [[= -> ->]|(k & -> & Hk & Hf)].
      * exists 0. now rewrite Nat.add_0_r.
      * exists (S k). auto.
    + intros (k & -> & Hk & Hf). destruct k as [|k].
      * left. injection Hk as ->. now rewrite Nat.add_0_r.
      * right. eauto.
    + intros (k & -> & Hk & Hf). exists (S k). auto.
    + intros (k & -> & Hk & Hf). destruct k as [|k].
      * injection Hk as ->. congruence.
      * eauto.
Qed.

Lemma jobs_spec users j :
  j ∈ jobs users <->
  exists ui u ri r,
    (ui, u) ∈ users /\ reminders u !! ri = Some r
    /\ j = ((ui, ri), userId u, phoneNumber u, r).
Proof.
  induction users as [|[ui0 u0] rest IH]; simpl.
  - split; [intros H; now apply elem_of_nil in H|].
    intros (ui & u & ri & r & H & _). now apply elem_of_nil in H.
  - rewrite elem_of_app, jobs_from_spec, IH. split.
    + intros [(k & r & Hk & ->)|(ui & u & ri & r & Hin & Hr & ->)].
      * exists ui0, u0, k, r. split; [apply list_elem_of_here|auto].
      * exists ui, u, ri, r. split; [now apply list_elem_of_further|auto].
    + intros (ui & u & ri & r & Hin & Hr & ->).
      apply elem_of_cons in Hin as [[= -> ->]|Hin]; [left; eauto|].
      right. eauto 10.
Qed.

(** The loop bodies of a pass are the reminders of the users the candidate
    query selects, each at its own position. *)
Lemma jobs_find_spec coll j :
  j ∈ jobs (find coll) <->
  exists ui u ri r,
    coll !! ui = Some u /\ find_filter u = true
    /\ reminders u !! ri = Some r
    /\ j = ((ui, ri), userId u, phoneNumber u, r).
Proof.
  rewrite jobs_spec. unfold find. split.
  - intros (ui & u & ri & r & (k & -> & Hk & Hf)%find_from_spec & Hr & ->).
    exists k, u, ri, r. auto.
  - intros (ui & u & ri & r & Hu & Hf & Hr & ->).
    exists ui, u, ri, r. split; [|auto].
    apply find_from_spec. exists ui. auto.
Qed.

Lemma NoDup_jobs_from ui uid num ri rem_list :
  NoDup (job_pos <$> jobs_from ui uid num ri rem_list).
Proof.
  revert ri. induction rem_list as [|r rest IH]; intros ri; simpl.
  - apply NoDup_nil_2.
  - apply NoDup_cons. split; [|apply IH].
    intros (j & Hj & (k & r' & _ & ->)%jobs_from_spec)%list_elem_of_fmap.
    unfold job_pos in Hj. simpl in Hj. injection Hj. lia.
Qed.

Lemma NoDup_jobs_find_from i coll :
  NoDup (job_pos <$> jobs (find_from i coll)).
Proof.
  revert i. induction coll as [|u rest IH]; intros i; simpl.
  - apply NoDup_nil_2.
  - destruct (find_filter u); [|apply IH]. simpl.
    rewrite fmap_app. apply NoDup_app.
    split; [apply NoDup_jobs_from|]. split; [|apply IH].
    intros p (j & -> & (k & r & _ & ->)%jobs_from_spec)%list_elem_of_fmap.
    intros (j' & Hj' & Hin)%list_elem_of_fmap.
    apply jobs_spec in Hin as (ui & u' & ri & r' & Hin & _ & ->).
    apply find_from_spec in Hin as (k' & -> & _).
    unfold job_pos in Hj'. simpl in Hj'. injection Hj'. lia.
Qed.

(** ** One pass *)

Lemma process_due_once_run cfg env coll :
  db cfg = true -> provider_configured cfg = true -> store_up env = true ->
  process_due_once cfg env coll = run_jobs cfg env (jobs (find coll)) coll.
Proof.
  intros H1 H2 H3. unfold process_due_once. rewrite H1, H2, H3. simpl.
  apply scan_users_jobs.
Qed.

(** A pass either does nothing to the store and parses, classifies, calls
    and marks nothing, or is the run of its loop bodies. *)
Lemma process_due_once_cases cfg env coll :
  (exists evs raised,
     process_due_once cfg env coll = (coll, evs, raised)
     /\ (forall e, e ∈ evs -> exists l, e = Printed l)
     /\ (raised = true -> store_up env = false))
  \/ (db cfg = true /\ provider_configured cfg = true /\ store_up env = true
      /\ process_due_once cfg env coll = run_jobs cfg env (jobs (find coll)) coll).
Proof.
  destruct (db cfg) eqn:H1; [|left].
  2: { exists [Printed MongoNotConfigured], false.
       unfold process_due_once. rewrite H1. simpl. split; [reflexivity|].
       split; [|discriminate]. intros e He. list_cases He. eauto. }
  destruct (provider_configured cfg) eqn:H2; [|left].
  2: { exists [Printed TwilioNotConfigured], false.
       unfold process_due_once. rewrite H1, H2. simpl. split; [reflexivity|].
       split; [|discriminate]. intros e He. list_cases He. eauto. }
  destruct (store_up env) eqn:H3; [|left].
  2: { exists [], true.
       unfold process_due_once. rewrite H1, H2, H3. simpl. split; [reflexivity|].
       split; [|reflexivity]. intros e He. list_cases He. }
  right. auto using process_due_once_run.
Qed.

Ltac pass_cases cfg env coll :=
  let evs := fresh "evs" in
  let raised := fresh "raised" in
  let Hpass := fresh "Hpass" in
  let Hlog := fresh "Hlog" in
  let Hdown := fresh "Hdown" in
  let Hdb := fresh "Hdb" in
  let Hprov := fresh "Hprov" in
  let Hup := fresh "Hup" in
  destruct (process_due_once_cases cfg env coll)
    as [(evs & raised & Hpass & Hlog & Hdown)|(Hdb & Hprov & Hup & Hpass)].

Lemma process_due_once_evolves cfg env coll :
  evolves coll (process_due_once cfg env coll).1.1.
Proof.
  pass_cases cfg env coll; rewrite Hpass;
    [apply evolves_refl|apply run_jobs_evolves].
Qed.

(** In one pass the provider is invoked at most once for a reminder. *)
Lemma process_due_once_calls_NoDup cfg env coll :
  NoDup (call_positions (process_due_once cfg env coll).1.2).
Proof.
  pass_cases cfg env coll; rewrite Hpass; simpl.
  - assert (call_positions evs = []) as ->; [|apply NoDup_nil_2].
    apply elem_of_nil_inv. intros p (e & He & Hp)%list_elem_of_omap.
    destruct (Hlog _ He) as [l ->]. discriminate.
  - apply (sublist_NoDup _ _ (NoDup_jobs_find_from 0 coll)).
    apply run_jobs_call_positions.
Qed.

(** An event of a pass that is about a reminder comes from the loop body of
    a reminder the snapshot holds at that position. *)
Lemma process_due_once_origin cfg env coll e :
  e ∈ (process_due_once cfg env coll).1.2 ->
  (exists l, e = Printed l)
  \/ exists ui u ri r c,
       coll !! ui = Some u /\ find_filter u = true
       /\ reminders u !! ri = Some r
       /\ evolves coll c
       /\ e ∈ (reminder_step cfg env c (ui, ri) (userId u) (phoneNumber u) r).1.2
       /\ (forall e',
            e' ∈ (reminder_step cfg env c (ui, ri) (userId u) (phoneNumber u) r).1.2 ->
            e' ∈ (process_due_once cfg env coll).1.2)
       /\ evolves
            (reminder_step cfg env c (ui, ri) (userId u) (phoneNumber u) r).1.1
            (process_due_once cfg env coll).1.1.
Proof.
  pass_cases cfg env coll; rewrite Hpass; simpl; [left; auto|].
  intros (j & c & Hj & Hev & He & Hsub & Hfin)%run_jobs_origin.
  apply jobs_find_spec in Hj as (ui & u & ri & r & Hu & Hf & Hr & ->).
  right. exists ui, u, ri, r, c. auto 10.
Qed.

(** In a configured pass that did not raise, the loop body of every
    reminder of every selected user was executed. *)
Lemma process_due_once_reaches cfg env coll ui u ri r :
  db cfg = true -> provider_configured cfg = true -> store_up env = true ->
  (process_due_once cfg env coll).2 = false ->
  coll !! ui = Some u -> find_filter u = true -> reminders u !! ri = Some r ->
  exists c,
    evolves coll c
    /\ (reminder_step cfg env c (ui, ri) (userId u) (phoneNumber u) r).2 = false
    /\ (forall e',
          e' ∈ (reminder_step cfg env c (ui, ri) (userId u) (phoneNumber u) r).1.2 ->
          e' ∈ (process_due_once cfg env coll).1.2)
    /\ evolves (reminder_step cfg env c (ui, ri) (userId u) (phoneNumber u) r).1.1
         (process_due_once cfg env coll).1.1.
Proof.
  intros H1 H2 H3. rewrite (process_due_once_run _ _ _ H1 H2 H3).
  intros Hr Hu Hf Hri.
  apply (run_jobs_reaches _ _ _ _ ((ui, ri), userId u, phoneNumber u, r) Hr).
  apply jobs_find_spec. eauto 10.
Qed.

Lemma process_due_once_change cfg env coll q :
  calledAt_at (process_due_once cfg env coll).1.1 q <> calledAt_at coll q ->
  exists p to msg,
    MarkWrite p (Some q) ∈ (process_due_once cfg env coll).1.2
    /\ ProviderCall p to msg true ∈ (process_due_once cfg env coll).1.2.
Proof.
  pass_cases cfg env coll; rewrite Hpass; simpl; [congruence|].
  apply run_jobs_change.
Qed.

(** A reminder whose [calledAt] is set when the pass starts is not parsed,
    classified or called by the pass. *)
Lemma process_due_once_skips_called cfg env coll p e :
  is_Some (calledAt_at coll p) ->
  e ∈ (process_due_once cfg env coll).1.2 ->
  ~ examines p e.
Proof.
  intros Hset He Hex.
  apply process_due_once_origin in He as [[l ->]|He]; [exact Hex|].
  destruct He as (ui & u & ri & r & c & Hu & _ & Hr & _ & He & _ & _).
  assert (Hp : p = (ui, ri)).
  { apply reminder_step_positions in He as [->|He]; [destruct Hex|].
    destruct e; simpl in Hex, He; try contradiction; congruence. }
  subst p. unfold calledAt_at, reminder_at in Hset. simpl in Hset.
  rewrite Hu in Hset. simpl in Hset. rewrite Hr in Hset. simpl in Hset.
  rewrite (reminder_step_called _ _ _ _ _ _ _ Hset) in He.
  now apply elem_of_nil in He.
Qed.

(** ** Passes one after another *)

Lemma fire_pass cfg t coll :
  fire cfg t coll =
  ((process_due_once cfg (trigger_env t) coll).1.1,
   (process_due_once cfg (trigger_env t) coll).1.2
     ++ epilogue cfg t (process_due_once cfg (trigger_env t) coll).2).
Proof.
  destruct t as [env|env]; unfold fire, run_once; simpl;
    destruct (process_due_once cfg env coll) as [[c evs] raised]; simpl.
  - now rewrite app_nil_r.
  - now rewrite app_nil_r.
Qed.

Lemma epilogue_events cfg t raised e :
  e ∈ epilogue cfg t raised ->
  e = Printed SchedulerError \/ e = Slept (INTERVAL_SECONDS cfg).
Proof.
  destruct t, raised; simpl; intros H; list_cases H; auto.
Qed.

Lemma call_positions_epilogue cfg t raised :
  call_positions (epilogue cfg t raised) = [].
Proof. now destruct t, raised. Qed.

Lemma fire_evolves cfg t coll : evolves coll (fire cfg t coll).1.
Proof. rewrite fire_pass. apply process_due_once_evolves. Qed.

Lemma run_passes_cons cfg t ts coll :
  run_passes cfg (t :: ts) coll =
  ((run_passes cfg ts (fire cfg t coll).1).1,
   (fire cfg t coll).2 :: (run_passes cfg ts (fire cfg t coll).1).2).
Proof.
  simpl. destruct (fire cfg t coll) as [c1 evs]. simpl.
  now destruct (run_passes cfg ts c1).
Qed.

Lemma run_passes_evolves cfg ts coll : evolves coll (run_passes cfg ts coll).1.
Proof.
  revert coll. induction ts as [|t ts IH]; intros coll; [apply evolves_refl|].
  rewrite run_passes_cons. simpl.
  eapply evolves_trans; [apply fire_evolves|apply IH].
Qed.

Lemma fire_skips_called cfg t coll p e :
  is_Some (calledAt_at coll p) -> e ∈ (fire cfg t coll).2 -> ~ examines p e.
Proof.
  intros Hset. rewrite fire_pass. simpl. intros [He|He]%elem_of_app.
  - eauto using process_due_once_skips_called.
  - apply epilogue_events in He as [->| ->]; simpl; tauto.
Qed.

Lemma examines_call p evs :
  Forall (fun e => ~ examines p e) evs -> p ∉ call_positions evs.
Proof.
  rewrite Forall_forall. intros H (e & He & Hp)%list_elem_of_omap.
  apply (H e He). destruct e; try discriminate. simpl. congruence.
Qed.

(** Once [calledAt] is set no later pass parses, classifies or calls the
    reminder. *)
Lemma run_passes_skips_called cfg ts coll p :
  is_Some (calledAt_at coll p) ->
  Forall (Forall (fun e => ~ examines p e)) (run_passes cfg ts coll).2.
Proof.
  revert coll. induction ts as [|t ts IH]; intros coll Hset.
  - constructor.
  - rewrite run_passes_cons. simpl. constructor.
    + apply Forall_forall. intros e He. eauto using fire_skips_called.
    + apply IH. now apply (fire_evolves cfg t coll).
Qed.

(** C2. A reminder whose [calledAt] is non-null when a pass starts is not
    parsed, not window-classified and not handed to the provider by that
    pass, and, its [calledAt] staying non-null, by no pass that follows,
    however many there are and whichever entry point starts them. *)
Theorem called_reminder_never_examined cfg ts coll p :
  is_Some (calledAt_at coll p) ->
  is_Some (calledAt_at (run_passes cfg ts coll).1 p)
  /\ Forall (Forall (fun e => ~ examines p e)) (run_passes cfg ts coll).2.
Proof.
  intros Hset. split.
  - now apply (run_passes_evolves cfg ts coll).
  - now apply run_passes_skips_called.
Qed.

Lemma fire_calls_NoDup cfg t coll : NoDup (call_positions (fire cfg t coll).2).
Proof.
  rewrite fire_pass. simpl.
  rewrite call_positions_app, call_positions_epilogue, app_nil_r.
  apply process_due_once_calls_NoDup.
Qed.

Lemma fire_change cfg t coll q :
  calledAt_at (fire cfg t coll).1 q <> calledAt_at coll q ->
  exists p to msg,
    MarkWrite p (Some q) ∈ (fire cfg t coll).2
    /\ ProviderCall p to msg true ∈ (fire cfg t coll).2.
Proof.
  rewrite fire_pass. simpl.
  intros (p & to & msg & H1 & H2)%process_due_once_change.
  exists p, to, msg. split; apply elem_of_app; now left.
Qed.

(** *** Counting successful calls *)

Lemma successes_app p a b : successes p (a ++ b) = successes p a + successes p b.
Proof. induction a as [|e a IH]; simpl; [reflexivity|]. rewrite IH. lia. Qed.

Lemma successes_none p evs : p ∉ call_positions evs -> successes p evs = 0.
Proof.
  induction evs as [|e evs IH]; simpl; [reflexivity|].
  intros Hnot. destruct e as [| |q to msg ok| | | |]; simpl in *; auto.
  apply not_elem_of_cons in Hnot as [Hq Hrest].
  rewrite (IH Hrest). destruct ok; [|reflexivity].
  rewrite bool_decide_eq_false_2; [reflexivity|congruence].
Qed.

Lemma successes_NoDup p evs : NoDup (call_positions evs) -> successes p evs <= 1.
Proof.
  induction evs as [|e evs IH]; simpl; [lia|].
  destruct e as [| |q to msg ok| | | |]; simpl; auto.
  intros [Hq Hrest]%NoDup_cons. specialize (IH Hrest).
  destruct ok; [|exact IH].
  destruct (bool_decide (q = p)) eqn:E; [|exact IH].
  apply bool_decide_eq_true in E as ->. rewrite (successes_none _ _ Hq). lia.
Qed.

Lemma successes_positive p evs :
  0 < successes p evs -> exists to msg, ProviderCall p to msg true ∈ evs.
Proof.
  induction evs as [|e evs IH]; simpl; [lia|].
  destruct (is_success_at p e) eqn:E.
  - intros _. destruct e as [| |q to msg [|]| | | |]; try discriminate.
    apply bool_decide_eq_true in E as ->. exists to, msg. apply list_elem_of_here.
  - intros H. destruct (IH H) as (to & msg & Hin).
    exists to, msg. now apply list_elem_of_further.
Qed.

Lemma successes_concat_none p logs :
  Forall (fun log => p ∉ call_positions log) logs -> successes p (concat logs) = 0.
Proof.
  induction 1 as [|log logs Hlog _ IH]; simpl; [reflexivity|].
  now rewrite successes_app, (successes_none _ _ Hlog), IH.
Qed.

(** After a successful provider call the loop body makes its mark-called
    write, or that write raises. *)
Lemma reminder_step_success cfg env coll p uid num r q to msg :
  ProviderCall q to msg true ∈ (reminder_step cfg env coll p uid num r).1.2 ->
  MarkRaised p ∈ (reminder_step cfg env coll p uid num r).1.2
  \/ (MarkWrite p (mark_called coll uid r (utcnow env p)).2
        ∈ (reminder_step cfg env coll p uid num r).1.2
      /\ (reminder_step cfg env coll p uid num r).1.1
         = (mark_called coll uid r (utcnow env p)).1).
Proof.
  step_cases cfg env coll p uid num r; rewrite Hres; simpl; intros H.
  5: dispatch_cases cfg env coll p uid num r; rewrite Hdisp in H |- *;
     simpl in H |- *.
  all: list_cases H.
  - left. in_list.
  - right. split; [in_list|reflexivity].
Qed.

Lemma process_due_once_mark_call cfg env coll p hit :
  MarkWrite p hit ∈ (process_due_once cfg env coll).1.2 ->
  exists to msg, ProviderCall p to msg true ∈ (process_due_once cfg env coll).1.2.
Proof.
  intros [[l ?]|He]%process_due_once_origin; [discriminate|].
  destruct He as (ui & u & ri & r & c & _ & _ & _ & _ & He & Hsub & _).
  apply reminder_step_mark in He as (-> & _ & (to & msg & Hc) & _). eauto.
Qed.

(** When the mark-called writes of a pass land, a reminder the provider
    accepted in that pass has its [calledAt] set after it. *)
Lemma process_due_once_success_marked cfg env coll p to msg :
  marks_land (process_due_once cfg env coll).1.2 ->
  ProviderCall p to msg true ∈ (process_due_once cfg env coll).1.2 ->
  is_Some (calledAt_at (process_due_once cfg env coll).1.1 p).
Proof.
  intros [Hnoraise Hexact] [[l ?]|He]%process_due_once_origin; [discriminate|].
  destruct He as (ui & u & ri & r & c & _ & _ & _ & _ & He & Hsub & Hfin).
  pose proof (reminder_step_call _ _ _ _ _ _ _ _ _ _ _ He) as (-> & _).
  apply reminder_step_success in He as [Hraised|[Hwrite Hcoll]].
  - now destruct (Hnoraise _ (Hsub _ Hraised)).
  - apply Hfin. rewrite Hcoll.
    pose proof (Hexact _ _ (Hsub _ Hwrite)) as Hhit.
    destruct (mark_called c (userId u) r (utcnow env (ui, ri))) as [c' hit] eqn:E.
    simpl in Hhit |- *. subst hit.
    rewrite (mark_called_stamps _ _ _ _ _ _ E). eauto.
Qed.

(** When the mark-called writes of a pass stamp the reminders they were
    made for, a [calledAt] that was set keeps its instant. *)
Lemma process_due_once_keeps_instant cfg env coll p t :
  (forall q hit, MarkWrite q hit ∈ (process_due_once cfg env coll).1.2 ->
                 hit = Some q) ->
  calledAt_at coll p = Some t ->
  calledAt_at (process_due_once cfg env coll).1.1 p = Some t.
Proof.
  intros Hexact Hset.
  destruct (decide (calledAt_at (process_due_once cfg env coll).1.1 p
                    = calledAt_at coll p)) as [Heq|Hne]; [congruence|].
  exfalso.
  apply process_due_once_change in Hne as (q & to & msg & Hm & _).
  pose proof (Hexact _ _ Hm) as [= <-].
  apply process_due_once_mark_call in Hm as (to' & msg' & Hc).
  apply (process_due_once_skips_called cfg env coll p _ (mk_is_Some _ _ Hset) Hc).
  reflexivity.
Qed.

Lemma marks_land_pass cfg t coll :
  marks_land (fire cfg t coll).2 ->
  marks_land (process_due_once cfg (trigger_env t) coll).1.2.
Proof.
  rewrite fire_pass. simpl. intros [H1 H2]. split.
  - intros p Hin. apply (H1 p). apply elem_of_app. now left.
  - intros p hit Hin. apply H2. apply elem_of_app. now left.
Qed.

Lemma successes_fire cfg t coll p :
  successes p (fire cfg t coll).2
  = successes p (process_due_once cfg (trigger_env t) coll).1.2.
Proof.
  rewrite fire_pass. simpl. rewrite successes_app.
  rewrite (successes_none p (epilogue _ _ _)); [lia|].
  rewrite call_positions_epilogue. apply not_elem_of_nil.
Qed.

(** As long as the mark-called writes land, the provider accepts at most
    one call for a reminder over all passes, and a [calledAt] that was set
    keeps its instant. *)
Lemma run_passes_once cfg ts coll p :
  Forall marks_land (run_passes cfg ts coll).2 ->
  successes p (concat (run_passes cfg ts coll).2) <= 1
  /\ forall t, calledAt_at coll p = Some t ->
               calledAt_at (run_passes cfg ts coll).1 p = Some t.
Proof.
  revert coll. induction ts as [|t ts IH]; intros coll.
  - simpl. auto.
  - rewrite run_passes_cons. simpl. intros [Hland Hrest]%Forall_cons.
    destruct (IH _ Hrest) as [Hcount Hkeep].
    pose proof (marks_land_pass _ _ _ Hland) as Hpass. split.
    + rewrite successes_app.
      pose proof (successes_NoDup p _ (fire_calls_NoDup cfg t coll)) as Hone.
      destruct (successes p (fire cfg t coll).2) as [|n] eqn:E; [exact Hcount|].
      rewrite successes_fire in E.
      destruct (successes_positive p _ ltac:(rewrite E; lia)) as (to & msg & Hc).
      pose proof (process_due_once_success_marked _ _ _ _ _ _ Hpass Hc) as Hset.
      rewrite (successes_concat_none p (run_passes cfg ts (fire cfg t coll).1).2);
        [lia|].
      assert (Hset' : is_Some (calledAt_at (fire cfg t coll).1 p))
        by now rewrite fire_pass.
      eapply Forall_impl; [exact (run_passes_skips_called cfg ts _ p Hset')|].
      intros log. apply examines_call.
    + intros t0 Hset. apply Hkeep. rewrite fire_pass. simpl.
      apply process_due_once_keeps_instant; [|exact Hset].
      apply Hpass.
Qed.

(** C1, as stated, fails. First run: the provider accepts the call of the
    first pass, the mark-called write of that pass raises, and the second
    pass, finding [calledAt] still null inside the window, has the provider
    called for the same reminder once more. Second run: the provider raises
    in the first pass and is invoked again, for the same reminder, in the
    second. *)
Lemma provider_invoked_twice :
  let coll := [sample_user [sample_reminder]] in
  let later := DateTime.mkdatetime 2024 5 1 9 32 0 0 None in
  let mark_fails :=
    mkPassEnv sample_clock true (fun _ => true) (fun _ => false) (fun _ => 1%Z) in
  let run1 := run_passes sample_cfg [Tick mark_fails; Manual (healthy later)] coll in
  let run2 :=
    run_passes sample_cfg [Tick (provider_down sample_clock); Tick (healthy later)] coll in
  ((call_positions <$> run1.2) = [[(0, 0)]; [(0, 0)]]
   /\ successes (0, 0) (concat run1.2) = 2
   /\ exists log, run1.2 !! 0 = Some log /\ MarkRaised (0, 0) ∈ log)
  /\ (call_positions <$> run2.2) = [[(0, 0)]; [(0, 0)]].
Proof.
  vm_compute. split; [|reflexivity].
  split; [reflexivity|]. split; [reflexivity|].
  eexists. split; [reflexivity|]. in_list.
Qed.

(** C1, amended. Over any sequence of passes, periodic or manual, run one
    after another: within one pass the provider is invoked at most once for
    a reminder; a reminder whose [calledAt] is non-null keeps it non-null
    and is not handed to the provider by any later pass; a [calledAt] that
    differs at the end was written by a mark-called write that follows a
    successful provider call in the same pass; and as long as every
    mark-called write goes through and stamps the reminder it was made for,
    the provider accepts at most one call for a reminder over all the
    passes and a [calledAt] once set keeps its instant. *)
Theorem dispatch_discipline cfg ts coll :
  Forall (fun log => NoDup (call_positions log)) (run_passes cfg ts coll).2
  /\ (forall p, is_Some (calledAt_at coll p) ->
        is_Some (calledAt_at (run_passes cfg ts coll).1 p)
        /\ Forall (fun log => p ∉ call_positions log) (run_passes cfg ts coll).2)
  /\ (forall q, calledAt_at (run_passes cfg ts coll).1 q <> calledAt_at coll q ->
        exists log p to msg,
          log ∈ (run_passes cfg ts coll).2
          /\ MarkWrite p (Some q) ∈ log
          /\ ProviderCall p to msg true ∈ log)
  /\ (Forall marks_land (run_passes cfg ts coll).2 ->
      forall p,
        successes p (concat (run_passes cfg ts coll).2) <= 1
        /\ forall t, calledAt_at coll p = Some t ->
                     calledAt_at (run_passes cfg ts coll).1 p = Some t).
Proof.
  split; [|split; [|split]].
  - revert coll. induction ts as [|t ts IH]; intros coll; [constructor|].
    rewrite run_passes_cons. simpl. constructor; [apply fire_calls_NoDup|apply IH].
  - intros p Hset. split; [now apply (run_passes_evolves cfg ts coll)|].
    eapply Forall_impl; [exact (run_passes_skips_called cfg ts coll p Hset)|].
    intros log. apply examines_call.
  - revert coll. induction ts as [|t ts IH]; intros coll q.
    + simpl. congruence.
    + rewrite run_passes_cons. simpl. intros Hne.
      destruct (decide (calledAt_at (fire cfg t coll).1 q = calledAt_at coll q))
        as [Heq|Hne1].
      * rewrite <- Heq in Hne.
        destruct (IH _ _ Hne) as (log & p & to & msg & Hin & H1 & H2).
        exists log, p, to, msg. split; [now apply list_elem_of_further|auto].
      * destruct (fire_change _ _ _ _ Hne1) as (p & to & msg & H1 & H2).
        exists (fire cfg t coll).2, p, to, msg.
        split; [apply list_elem_of_here|auto].
  - intros Hland p. now apply run_passes_once.
Qed.

Lemma called_reminder_never_examined_witness :
  let coll := [sample_user [called_reminder; sample_reminder]] in
  let ts := [Tick (healthy sample_clock); Manual (healthy sample_clock)] in
  is_Some (calledAt_at coll (0, 0))
  /\ is_Some (calledAt_at (run_passes sample_cfg ts coll).1 (0, 0))
  /\ Forall (Forall (fun e => ~ examines (0, 0) e)) (run_passes sample_cfg ts coll).2.
Proof.
  intros coll ts.
  assert (H : is_Some (calledAt_at coll (0, 0))) by (vm_compute; eauto).
  split; [exact H|].
  exact (called_reminder_never_examined sample_cfg ts coll (0, 0) H).
Defined.

Lemma dispatch_discipline_witness :
  let coll := [sample_user [called_reminder; sample_reminder]] in
  let ts := [Tick (healthy sample_clock); Manual (healthy sample_clock)] in
  is_Some (calledAt_at coll (0, 0))
  /\ Forall marks_land (run_passes sample_cfg ts coll).2
  /\ (is_Some (calledAt_at (run_passes sample_cfg ts coll).1 (0, 0))
      /\ Forall (fun log => (0, 0) ∉ call_positions log) (run_passes sample_cfg ts coll).2)
  /\ successes (0, 1) (concat (run_passes sample_cfg ts coll).2) <= 1.
Proof.
  intros coll ts.
  assert (H : is_Some (calledAt_at coll (0, 0))) by (vm_compute; eauto).
  assert (Hland : Forall marks_land (run_passes sample_cfg ts coll).2).
  { set (logs := (run_passes sample_cfg ts coll).2). vm_compute in logs.
    subst logs.
    constructor; [|constructor; [|constructor]];
      (split; [intros p Hin|intros p hit Hin]); list_cases Hin;
      injection Hin as <- <-; reflexivity. }
  split; [exact H|]. split; [exact Hland|]. split.
  - exact (proj1 (proj2 (dispatch_discipline sample_cfg ts coll)) (0, 0) H).
  - exact (proj1 (proj2 (proj2 (proj2 (dispatch_discipline sample_cfg ts coll)))
                    Hland (0, 1))).
Defined.

(** ** The due window *)

Lemma in_window_bounds cfg diff :
  in_window cfg diff = true <-> (0 <= diff <= WINDOW_SECONDS cfg * 1000000)%Z.
Proof.
  unfold in_window. rewrite andb_true_iff, !Z.leb_le. tauto.
Qed.




(** ** The mark-called write identifies its reminder *)



(** ** Users without a number *)

(** C5, as stated, fails. With the default configuration a user document
    without [phoneNumber] is selected by the candidate query (its operator
    document names [$ne] twice and only the second condition, [!= ""],
    survives) and the provider is invoked for that user's due reminder with
    no destination. With an empty default country code a stored number made
    of separators only normalises to the empty string and the provider is
    invoked with it: the dispatcher has no check on the number. *)
Lemma call_attempted_without_number :
  let u := mkUser (Some "u2") None true [sample_reminder] in
  let cfg' := mkConfig true true (Some "+15550100") "" 900 60 in
  let u' := mkUser (Some "u3") (Some "-") true [sample_reminder] in
  (phoneNumber_ops !! "$ne" = Some (Some "")
   /\ find_filter u = true
   /\ normalize_e164 (DEFAULT_COUNTRY_CODE sample_cfg) (phoneNumber u) = None
   /\ (process_due_once sample_cfg (healthy sample_clock) [u]).1.2
      = [ Parsed (0, 0) (Some (DateTime.mkdatetime 2024 5 1 9 30 0 0 None));
          Classified (0, 0) 60000000 true;
          ProviderCall (0, 0) None "Reminder: pills at 09:30 on 2024-05-01." true;
          MarkWrite (0, 0) (Some (0, 0)) ])
  /\ (normalize_e164 (DEFAULT_COUNTRY_CODE cfg') (phoneNumber u') = Some ""
      /\ (process_due_once cfg' (healthy sample_clock) [u']).1.2
         = [ Parsed (0, 0) (Some (DateTime.mkdatetime 2024 5 1 9 30 0 0 None));
             Classified (0, 0) 60000000 true;
             ProviderCall (0, 0) (Some "") "Reminder: pills at 09:30 on 2024-05-01." true;
             MarkWrite (0, 0) (Some (0, 0)) ]).
Proof. repeat split; reflexivity. Qed.

Lemma find_filter_number u :
  find_filter u = true ->
  phoneRemindersEnabled u = true /\ phoneNumber u <> Some "".
Proof.
  unfold find_filter. intros [He Hs]%andb_prop. split; [exact He|].
  change (bool_decide (phoneNumber u <> Some "") = true) in Hs.
  now apply bool_decide_eq_true in Hs.
Qed.

Lemma normalize_e164_nonempty cc s :
  cc <> "" -> s <> "" ->
  exists n, normalize_e164 cc (Some s) = Some n /\ n <> "".
Proof.
  intros Hcc Hs. rewrite normalize_e164_some. eexists. split; [reflexivity|].
  destruct s as [|c s]; [congruence|].
  unfold normalize_contract.
  destruct (PyStr.startswith "+" (strip_separators _)) eqn:E.
  - intros Hn. rewrite Hn in E. discriminate.
  - destruct cc; [congruence|discriminate].
Qed.

(** C5, amended. No call is attempted in a pass for a user whose stored
    number is the empty string, since the candidate query returns no such
    user; whoever is called is called at the normalised form of the stored
    number, which, the default country code being non-empty, is non-empty
    for every non-empty stored number; and the dispatcher does not look at
    the number: with the provider configured it invokes the provider
    whatever the number is, and without it it invokes nothing. *)
Theorem empty_number_not_called :
  (forall u, find_filter u = true ->
     phoneRemindersEnabled u = true /\ phoneNumber u <> Some "")
  /\ (forall cfg env coll ui ri to msg ok,
        ProviderCall (ui, ri) to msg ok ∈ (process_due_once cfg env coll).1.2 ->
        exists u,
          coll !! ui = Some u /\ phoneNumber u <> Some ""
          /\ to = normalize_e164 (DEFAULT_COUNTRY_CODE cfg) (phoneNumber u))
  /\ (forall cc s, cc <> "" -> s <> "" ->
        exists n, normalize_e164 cc (Some s) = Some n /\ n <> "")
  /\ (forall cfg env coll p uid num r,
        (provider_configured cfg = true ->
         call_positions (dispatch cfg env coll p uid num r).2 = [p])
        /\ (provider_configured cfg = false ->
            dispatch cfg env coll p uid num r = (coll, [Printed (CallFailed uid)]))).
Proof.
  split; [exact find_filter_number|]. split; [|split; [exact normalize_e164_nonempty|]].
  - intros cfg env coll ui ri to msg ok He.
    apply process_due_once_origin in He as [[l ?]|He]; [discriminate|].
    destruct He as (ui' & u & ri' & r & c & Hu & Hf & _ & _ & He & _ & _).
    apply reminder_step_call in He as ([= -> ->] & _ & _ & -> & _).
    exists u. split; [exact Hu|]. split; [|reflexivity].
    now apply find_filter_number.
  - intros cfg env coll p uid num r. split; intros Hcfg;
      dispatch_cases cfg env coll p uid num r; rewrite Hdisp;
      try congruence; reflexivity.
Qed.

Lemma empty_number_not_called_witness :
  let coll := [mkUser (Some "u4") (Some "") true [sample_reminder];
               sample_user [sample_reminder]] in
  let log := (process_due_once sample_cfg (healthy sample_clock) coll).1.2 in
  ProviderCall (1, 0) (Some "+919876543210")
    "Reminder: pills at 09:30 on 2024-05-01." true ∈ log
  /\ call_positions log = [(1, 0)]
  /\ exists u,
       coll !! 1 = Some u /\ phoneNumber u <> Some ""
       /\ Some "+919876543210"
          = normalize_e164 (DEFAULT_COUNTRY_CODE sample_cfg) (phoneNumber u).
Proof.
  intros coll log.
  assert (H : ProviderCall (1, 0) (Some "+919876543210")
                "Reminder: pills at 09:30 on 2024-05-01." true ∈ log)
    by (vm_compute; in_list).
  split; [exact H|]. split; [reflexivity|].
  exact (proj1 (proj2 empty_number_not_called) _ _ _ _ _ _ _ _ H).
Defined.

(** ** Failure isolation *)


Lemma process_due_once_outline cfg env env' coll :
  now env = now env' -> store_up env = store_up env' ->
  outline (process_due_once cfg env coll).1.2
  = outline (process_due_once cfg env' coll).1.2
  /\ (process_due_once cfg env coll).2 = (process_due_once cfg env' coll).2.
Proof.
  intros Hnow Hup. unfold process_due_once. rewrite <- Hup.
  destruct (db cfg); simpl; [|now split].
  destruct (provider_configured cfg); simpl; [|now split].
  destruct (store_up env); simpl; [|now split].
  rewrite !scan_users_jobs. now apply run_jobs_outline.
Qed.

Lemma process_due_once_raised cfg env coll :
  (process_due_once cfg env coll).2 = true ->
  store_up env = false
  \/ exists p dt,
       Parsed p (Some dt) ∈ (process_due_once cfg env coll).1.2
       /\ DateTime.sub (now env) dt = None.
Proof.
  pass_cases cfg env coll; rewrite Hpass; simpl; [auto|].
  intros H. right. now apply run_jobs_raised.
Qed.





(** ** Retry after a failed call *)

(** C4, as stated, fails: of two reminders of one user with the same date,
    time and message, the provider raises for the first and accepts the
    second; the mark-called write made for the second stamps the first, so
    the pass does not leave the failed reminder's [calledAt] null, and the
    next pass, provider healthy and window still open, does not dispatch it
    (it calls the second one again). *)
Lemma failed_call_stamped_by_twin :
  let coll := [sample_user [sample_reminder; sample_reminder]] in
  let pass1 := process_due_once sample_cfg (provider_fails_at (0, 0) sample_clock) coll in
  let pass2 :=
    process_due_once sample_cfg
      (healthy (DateTime.mkdatetime 2024 5 1 9 32 0 0 None)) pass1.1.1 in
  ProviderCall (0, 0) (Some "+919876543210")
    "Reminder: pills at 09:30 on 2024-05-01." false ∈ pass1.1.2
  /\ pass1.2 = false
  /\ calledAt_at coll (0, 0) = None
  /\ calledAt_at pass1.1.1 (0, 0) = Some 1714555860000000%Z
  /\ call_positions pass1.1.2 = [(0, 0); (0, 1)]
  /\ call_positions pass2.1.2 = [(0, 1)].
Proof.
  vm_compute. split; [in_list|]. repeat split; reflexivity.
Qed.

Lemma process_due_once_failed_call cfg env coll p to msg :
  ProviderCall p to msg false ∈ (process_due_once cfg env coll).1.2 ->
  call_ok env p = false /\ calledAt_at coll p = None.
Proof.
  intros He. split.
  - apply process_due_once_origin in He as [[l ?]|He]; [discriminate|].
    destruct He as (ui & u & ri & r & c & _ & _ & _ & _ & He & _ & _).
    now apply reminder_step_call in He as (-> & _ & _ & _ & _ & -> & _).
  - destruct (calledAt_at coll p) as [t|] eqn:E; [|reflexivity].
    exfalso.
    apply (process_due_once_skips_called cfg env coll p _ (mk_is_Some _ _ E) He).
    reflexivity.
Qed.

(** C4, amended. A provider call that raises is followed by no mark-called
    write of its own, and the reminder's [calledAt], null before the pass,
    is null after it unless a mark-called write made in that pass for
    another reminder matched it; the pass examines and attempts what it
    would have with a healthy provider. In a later pass that runs to its
    end with the reminder still unmarked, resolved and inside the window,
    provider and store answering, the provider is called for it, once in
    that pass, a mark-called write follows, and when that write matches the
    reminder itself its [calledAt] is non-null after the pass. *)
Theorem retry_after_failed_call :
  (forall cfg env coll p to msg,
     ProviderCall p to msg false ∈ (process_due_once cfg env coll).1.2 ->
     (forall hit, MarkWrite p hit ∉ (process_due_once cfg env coll).1.2)
     /\ calledAt_at coll p = None
     /\ ((forall p', MarkWrite p' (Some p) ∉ (process_due_once cfg env coll).1.2) ->
         calledAt_at (process_due_once cfg env coll).1.1 p = None))
  /\ (forall cfg env env' coll,
        now env = now env' -> store_up env = store_up env' ->
        outline (process_due_once cfg env coll).1.2
        = outline (process_due_once cfg env' coll).1.2
        /\ (process_due_once cfg env coll).2 = (process_due_once cfg env' coll).2)
  /\ (forall cfg env coll ui u ri r dt diff,
        db cfg = true -> provider_configured cfg = true -> store_up env = true ->
        (process_due_once cfg env coll).2 = false ->
        coll !! ui = Some u -> find_filter u = true ->
        reminders u !! ri = Some r -> calledAt r = None ->
        try_parse_datetime (date r) (time r) = Some dt ->
        DateTime.sub (now env) dt = Some diff ->
        in_window cfg diff = true ->
        call_ok env (ui, ri) = true -> mark_ok env (ui, ri) = true ->
        ProviderCall (ui, ri)
          (normalize_e164 (DEFAULT_COUNTRY_CODE cfg) (phoneNumber u))
          (reminder_text r) true ∈ (process_due_once cfg env coll).1.2
        /\ NoDup (call_positions (process_due_once cfg env coll).1.2)
        /\ exists hit,
             MarkWrite (ui, ri) hit ∈ (process_due_once cfg env coll).1.2
             /\ (hit = Some (ui, ri) ->
                 is_Some (calledAt_at (process_due_once cfg env coll).1.1 (ui, ri)))).
Proof.
  split; [|split; [exact process_due_once_outline|]].
  - intros cfg env coll p to msg He.
    destruct (process_due_once_failed_call _ _ _ _ _ _ He) as [Hfail Hnull].
    split; [|split; [exact Hnull|]].
    + intros hit Hm.
      apply process_due_once_origin in Hm as [[l ?]|Hm]; [discriminate|].
      destruct Hm as (ui & u & ri & r & c & _ & _ & _ & _ & Hm & _ & _).
      apply reminder_step_mark in Hm as (-> & Hok & _). congruence.
    + intros Hnone.
      destruct (decide (calledAt_at (process_due_once cfg env coll).1.1 p
                        = calledAt_at coll p)) as [Heq|Hne]; [congruence|].
      apply process_due_once_change in Hne as (p' & to' & msg' & Hm & _).
      now destruct (Hnone p').
  - intros cfg env coll ui u ri r dt diff H1 H2 H3 Hr Hu Hf Hri Hc Hp Hs Hw Hcall Hmark.
    destruct (process_due_once_reaches _ _ _ _ _ _ _ H1 H2 H3 Hr Hu Hf Hri)
      as (c & _ & _ & Hsub & Hev).
    destruct (reminder_step_due cfg env c (ui, ri) (userId u) (phoneNumber u)
                r dt diff H2 Hc Hp Hs Hw) as (_ & Hpc & Hmw).
    destruct (Hmw Hcall Hmark) as [Hwrite Hcoll].
    rewrite Hcall in Hpc.
    split; [auto|]. split; [apply process_due_once_calls_NoDup|].
    exists (mark_called c (userId u) r (utcnow env (ui, ri))).2.
    split; [auto|]. intros Hhit.
    apply Hev. rewrite Hcoll.
    destruct (mark_called c (userId u) r (utcnow env (ui, ri))) as [c' hit] eqn:E.
    simpl in Hhit |- *. subst hit.
    rewrite (mark_called_stamps _ _ _ _ _ _ E). eauto.
Qed.

Lemma retry_after_failed_call_witness :
  let coll := [sample_user [sample_reminder]] in
  let pass1 := process_due_once sample_cfg (provider_down sample_clock) coll in
  let env2 := healthy (DateTime.mkdatetime 2024 5 1 9 32 0 0 None) in
  let pass2 := process_due_once sample_cfg env2 pass1.1.1 in
  (ProviderCall (0, 0) (Some "+919876543210")
     "Reminder: pills at 09:30 on 2024-05-01." false ∈ pass1.1.2
   /\ calledAt_at pass1.1.1 (0, 0) = None)
  /\ ProviderCall (0, 0) (Some "+919876543210")
       "Reminder: pills at 09:30 on 2024-05-01." true ∈ pass2.1.2
  /\ NoDup (call_positions pass2.1.2)
  /\ exists hit,
       MarkWrite (0, 0) hit ∈ pass2.1.2
       /\ (hit = Some (0, 0) -> is_Some (calledAt_at pass2.1.1 (0, 0))).
Proof.
  intros coll pass1 env2 pass2.
  assert (Hfail : ProviderCall (0, 0) (Some "+919876543210")
                    "Reminder: pills at 09:30 on 2024-05-01." false ∈ pass1.1.2)
    by (vm_compute; in_list).
  split.
  - split; [exact Hfail|].
    apply (proj1 retry_after_failed_call _ _ _ _ _ _ Hfail).
    intros p' Hm. vm_compute in Hm. list_cases Hm.
  - apply (proj2 (proj2 retry_after_failed_call) sample_cfg env2 pass1.1.1
             0 (sample_user [sample_reminder]) 0 sample_reminder
             (DateTime.mkdatetime 2024 5 1 9 30 0 0 None) 120000000%Z);
      reflexivity.
Defined.

(* ===================================================================== *)
(** * Further properties *)
(* ===================================================================== *)

(** ** The collection under the writes of a pass *)

Lemma forget_lookup (a b : Collection) i u :
  forget_calledAt a = forget_calledAt b -> a !! i = Some u ->
  exists u',
    b !! i = Some u' /\ userId u' = userId u /\ phoneNumber u' = phoneNumber u
    /\ phoneRemindersEnabled u' = phoneRemindersEnabled u
    /\ forall j r, reminders u !! j = Some r ->
         exists r',
           reminders u' !! j = Some r' /\ date r' = date r /\ time r' = time r
           /\ message r' = message r /\ createdAt r' = createdAt r.
Proof.
  unfold forget_calledAt. intros H Hi.
  apply (f_equal (fun l => l !! i)) in H.
  rewrite !list_lookup_fmap, Hi in H. simpl in H.
  destruct (b !! i) as [u'|] eqn:Hb; [|discriminate]. simpl in H.
  injection H as H1 H2 H3 H4.
  exists u'. split; [reflexivity|]. split; [symmetry; exact H1|].
  split; [symmetry; exact H2|]. split; [symmetry; exact H3|].
  intros j r Hj.
  apply (f_equal (fun l => l !! j)) in H4.
  rewrite !list_lookup_fmap, Hj in H4. simpl in H4.
  destruct (reminders u' !! j) as [r'|] eqn:Hr; [|discriminate]. simpl in H4.
  injection H4 as E1 E2 E3 E4.
  exists r'. split; [reflexivity|]. split; [symmetry; exact E1|].
  split; [symmetry; exact E2|]. split; [symmetry; exact E3|symmetry; exact E4].
Qed.

Lemma evolves_user coll c i u :
  evolves coll c -> coll !! i = Some u ->
  exists u',
    c !! i = Some u' /\ userId u' = userId u /\ phoneNumber u' = phoneNumber u
    /\ phoneRemindersEnabled u' = phoneRemindersEnabled u
    /\ forall j r, reminders u !! j = Some r ->
         exists r',
           reminders u' !! j = Some r' /\ date r' = date r /\ time r' = time r
           /\ message r' = message r /\ createdAt r' = createdAt r.
Proof. intros [H _]. apply forget_lookup. symmetry. exact H. Qed.

Lemma evolves_user_back coll c i u' :
  evolves coll c -> c !! i = Some u' ->
  exists u,
    coll !! i = Some u /\ userId u = userId u' /\ phoneNumber u = phoneNumber u'
    /\ phoneRemindersEnabled u = phoneRemindersEnabled u'
    /\ forall j r', reminders u' !! j = Some r' ->
         exists r,
           reminders u !! j = Some r /\ date r = date r' /\ time r = time r'
           /\ message r = message r' /\ createdAt r = createdAt r'.
Proof. intros [H _]. apply forget_lookup. exact H. Qed.


Lemma uniquely_identified_evolves coll c :
  evolves coll c -> uniquely_identified coll -> uniquely_identified c.
Proof.
  intros Hev Huniq i u j r Hu Hr.
  destruct (evolves_user_back _ _ _ _ Hev Hu) as (u0 & Hu0 & Huid & _ & _ & Hrs).
  destruct (Hrs _ _ Hr) as (r0 & Hr0 & _ & _ & _ & Hc).
  destruct (Huniq _ _ _ _ Hu0 Hr0) as [Hsome Honly].
  split; [now rewrite <- Hc|].
  intros i' u' j' r' Hu' Hr' Hsame Hsame'.
  destruct (evolves_user_back _ _ _ _ Hev Hu') as (u1 & Hu1 & Huid1 & _ & _ & Hrs1).
  destruct (Hrs1 _ _ Hr') as (r1 & Hr1 & _ & _ & _ & Hc1).
  apply (Honly _ _ _ _ Hu1 Hr1); congruence.
Qed.

(** ** What a pass calls *)

Lemma try_parse_datetime_needs_both d t dt :
  try_parse_datetime d t = Some dt ->
  PyStr.truthy d = true /\ PyStr.truthy t = true.
Proof.
  unfold try_parse_datetime, try_parse_datetime_with.
  destruct (PyStr.truthy d), (PyStr.truthy t); simpl; intros H;
    try discriminate H; split; reflexivity.
Qed.

(** X1. Whom a pass calls and what it says. Every provider call of a pass
    is for a reminder that the collection held at that position when the
    pass began, in a document with [phoneRemindersEnabled] set, with a null
    [calledAt] and a non-empty [date] and [time]; the text spoken is
    [Reminder: <message> at <time> on <date>.] built from that reminder;
    the outcome logged is the provider's answer; and the store and the
    provider were configured and the store reachable. *)
Theorem call_audience cfg env coll ui ri to msg outcome :
  ProviderCall (ui, ri) to msg outcome ∈ (process_due_once cfg env coll).1.2 ->
  db cfg = true /\ provider_configured cfg = true /\ store_up env = true
  /\ exists u r,
       coll !! ui = Some u /\ reminders u !! ri = Some r
       /\ phoneRemindersEnabled u = true
       /\ calledAt r = None
       /\ PyStr.truthy (date r) = true /\ PyStr.truthy (time r) = true
       /\ msg = reminder_text r
       /\ outcome = call_ok env (ui, ri).
Proof.
  intros Hin.
  assert (db cfg = true /\ provider_configured cfg = true /\ store_up env = true)
    as Hcfg.
  { pass_cases cfg env coll; [|auto].
    rewrite Hpass in Hin. simpl in Hin.
    destruct (Hlog _ Hin) as [l Hl]. discriminate Hl. }
  split; [apply Hcfg|]. split; [apply Hcfg|]. split; [apply Hcfg|].
  apply process_due_once_origin in Hin as [[l Hl]|Hin]; [discriminate Hl|].
  destruct Hin as (ui' & u & ri' & r & c & Hu & Hf & Hr & _ & Hin & _).
  apply reminder_step_call in Hin
    as (Hq & Hcalled & _ & _ & Hmsg & Hok & dt & diff & Hparse & _).
  injection Hq as -> ->.
  apply try_parse_datetime_needs_both in Hparse as [Hd Ht].
  apply find_filter_number in Hf as [Hen _].
  exists u, r. auto 10.
Qed.

Lemma call_audience_witness :
  exists u r,
    [sample_user [sample_reminder]] !! 0 = Some u /\ reminders u !! 0 = Some r
    /\ reminder_text r = "Reminder: pills at 09:30 on 2024-05-01.".
Proof.
  destruct (call_audience sample_cfg (healthy sample_clock)
              [sample_user [sample_reminder]] 0 0 (Some "+919876543210")
              "Reminder: pills at 09:30 on 2024-05-01." true)
    as (_ & _ & _ & u & r & Hu & Hr & _ & _ & _ & _ & Hmsg & _).
  - vm_compute. in_list.
  - exists u, r. split; [exact Hu|]. split; [exact Hr|]. symmetry. exact Hmsg.
Defined.

Lemma StronglySorted_sublist {A} (R : relation A) (l k : list A) :
  l `sublist_of` k -> StronglySorted R k -> StronglySorted R l.
Proof.
  induction 1 as [|x l k Hs IH|x l k Hs IH]; intros Hk.
  - constructor.
  - apply StronglySorted_inv in Hk as [Hk Hx]. constructor; [auto|].
    eapply Forall_forall. intros y Hy.
    rewrite Forall_forall in Hx. apply Hx. eapply elem_of_sublist; eauto.
  - apply StronglySorted_inv in Hk as [Hk _]. auto.
Qed.

Lemma jobs_from_sorted ui uid num ri rem_list :
  StronglySorted pos_lt (job_pos <$> jobs_from ui uid num ri rem_list).
Proof.
  revert ri. induction rem_list as [|r rest IH]; intros ri; simpl.
  - constructor.
  - constructor; [apply IH|].
    apply Forall_forall.
    intros p (j & -> & (k & r' & _ & ->)%jobs_from_spec)%list_elem_of_fmap.
    right. simpl. split; [reflexivity|lia].
Qed.

Lemma jobs_find_from_sorted i coll :
  StronglySorted pos_lt (job_pos <$> jobs (find_from i coll)).
Proof.
  revert i. induction coll as [|u rest IH]; intros i; simpl.
  - constructor.
  - destruct (find_filter u); [|apply IH]. simpl.
    rewrite fmap_app.
    apply StronglySorted_app_2; [|apply jobs_from_sorted|apply IH].
    intros p q (j & -> & (k & r & _ & ->)%jobs_from_spec)%list_elem_of_fmap.
    intros (j' & -> & Hin)%list_elem_of_fmap.
    apply jobs_spec in Hin as (ui & u' & ri & r' & Hin & _ & ->).
    apply find_from_spec in Hin as (k' & -> & _).
    left. simpl. lia.
Qed.

(** X2. The calls of a pass are placed in document order: by the position
    of the user document, then by the position in its [reminders] array,
    each strictly after the one before. *)
Theorem calls_in_document_order cfg env coll :
  StronglySorted pos_lt (call_positions (process_due_once cfg env coll).1.2).
Proof.
  pass_cases cfg env coll; rewrite Hpass; simpl.
  - assert (call_positions evs = []) as ->; [|constructor].
    apply elem_of_nil_inv. intros p (e & He & Hp)%list_elem_of_omap.
    destruct (Hlog _ He) as [l ->]. discriminate.
  - apply (StronglySorted_sublist _ _ _ (run_jobs_call_positions _ _ _ _)).
    apply jobs_find_from_sorted.
Qed.

(** ** The window, and passes that change nothing *)




Lemma reminder_step_no_success cfg env coll p uid num r :
  (forall to msg,
     ProviderCall p to msg true ∉ (reminder_step cfg env coll p uid num r).1.2) ->
  (reminder_step cfg env coll p uid num r).1.1 = coll.
Proof.
  step_cases cfg env coll p uid num r; rewrite Hres; simpl; try reflexivity.
  dispatch_cases cfg env coll p uid num r; rewrite Hdisp; simpl;
    try reflexivity.
  intros H. exfalso. eapply H. in_list.
Qed.

Lemma run_jobs_no_success cfg env js coll :
  (forall p to msg,
     ProviderCall p to msg true ∉ (run_jobs cfg env js coll).1.2) ->
  (run_jobs cfg env js coll).1.1 = coll.
Proof.
  revert coll. induction js as [|[[[p uid] num] r] js IH]; intros coll;
    [reflexivity|].
  rewrite run_jobs_cons. cbn zeta. unfold run_job.
  destruct (reminder_step cfg env coll p uid num r) as [[c1 e1] r1] eqn:E.
  simpl. intros H.
  assert (c1 = coll) as ->.
  { pose proof (reminder_step_no_success cfg env coll p uid num r) as Hs.
    rewrite E in Hs. simpl in Hs. apply Hs. intros to msg Hin.
    apply (H p to msg). destruct r1; simpl; [exact Hin|].
    apply elem_of_app. now left. }
  destruct r1; simpl; [reflexivity|].
  apply IH. intros q to msg Hin. apply (H q to msg). simpl.
  apply elem_of_app. now right.
Qed.

Lemma process_due_once_no_success cfg env coll :
  (forall p to msg,
     ProviderCall p to msg true ∉ (process_due_once cfg env coll).1.2) ->
  (process_due_once cfg env coll).1.1 = coll.
Proof.
  pass_cases cfg env coll; rewrite Hpass; simpl; [reflexivity|].
  apply run_jobs_no_success.
Qed.

(** X4. A pass in which the provider accepted no call leaves the
    collection exactly as it was: the only write of the scanner follows an
    accepted call. *)
Theorem store_untouched_without_accepted_call cfg env coll :
  (forall p to msg,
     ProviderCall p to msg true ∉ (process_due_once cfg env coll).1.2) ->
  (process_due_once cfg env coll).1.1 = coll.
Proof. apply process_due_once_no_success. Qed.

Lemma store_untouched_without_accepted_call_witness :
  (process_due_once sample_cfg (provider_down sample_clock)
     [sample_user [sample_reminder]]).1.1
  = [sample_user [sample_reminder]].
Proof.
  apply (store_untouched_without_accepted_call sample_cfg
           (provider_down sample_clock) [sample_user [sample_reminder]]).
  intros p to msg H. vm_compute in H. list_cases H.
Defined.

Lemma process_due_once_negative_window cfg env coll :
  (WINDOW_SECONDS cfg < 0)%Z ->
  call_positions (process_due_once cfg env coll).1.2 = []
  /\ (process_due_once cfg env coll).1.1 = coll.
Proof.
  intros Hneg.
  assert (forall p to msg outcome,
            ProviderCall p to msg outcome ∉ (process_due_once cfg env coll).1.2)
    as Hnone.
  { intros p to msg outcome He.
    apply process_due_once_origin in He as [[l Hl]|He]; [discriminate Hl|].
    destruct He as (ui & u & ri & r0 & c & _ & _ & _ & _ & He & _).
    apply reminder_step_call in He
      as (_ & _ & _ & _ & _ & _ & dt & diff & _ & _ & Hwin).
    apply in_window_bounds in Hwin. lia. }
  split.
  - apply elem_of_nil_inv. intros p (e & He & Hp)%list_elem_of_omap.
    destruct e as [| |q to msg outcome| | | |]; try discriminate Hp.
    exact (Hnone _ _ _ _ He).
  - apply process_due_once_no_success. intros p to msg. apply Hnone.
Qed.

(** X5. With a negative [WINDOW_SECONDS] no pass invokes the provider and
    the collection never changes. *)
Theorem negative_window_never_calls cfg ts coll :
  (WINDOW_SECONDS cfg < 0)%Z ->
  (run_passes cfg ts coll).1 = coll
  /\ Forall (fun log => call_positions log = []) (run_passes cfg ts coll).2.
Proof.
  intros Hneg. induction ts as [|t ts [IH1 IH2]]; [split; [reflexivity|constructor]|].
  rewrite run_passes_cons. simpl.
  destruct (process_due_once_negative_window cfg (trigger_env t) coll Hneg)
    as [Hcalls Hsame].
  assert ((fire cfg t coll).1 = coll) as Hfire.
  { rewrite fire_pass. exact Hsame. }
  rewrite Hfire. split; [exact IH1|]. constructor; [|exact IH2].
  rewrite fire_pass. simpl.
  now rewrite call_positions_app, call_positions_epilogue, Hcalls.
Qed.

Lemma negative_window_never_calls_witness :
  Forall (fun log => call_positions log = [])
    (run_passes (mkConfig true true (Some "+15550100") "+91" (-1) 60)
       [Tick (healthy sample_clock)] [sample_user [sample_reminder]]).2.
Proof.
  apply (negative_window_never_calls
           (mkConfig true true (Some "+15550100") "+91" (-1) 60)
           [Tick (healthy sample_clock)] [sample_user [sample_reminder]]).
  reflexivity.
Defined.

(** ** Configuration and the health report *)

(** X6. Without the store or without the provider (client or caller
    number) a pass prints one line and does nothing else: the manual
    trigger still answers success, the collection stays as it was over any
    number of passes, nothing is parsed, classified or called, and this
    holds also when the store is unreachable, since it is never queried. *)
Theorem unconfigured_passes_idle cfg :
  db cfg = false \/ provider_configured cfg = false ->
  (forall env coll,
     exists l, run_once cfg env coll = (coll, [Printed l], Success200))
  /\ (forall ts coll,
        (run_passes cfg ts coll).1 = coll
        /\ Forall (fun log => outline log = []) (run_passes cfg ts coll).2).
Proof.
  intros Hcfg.
  assert (forall env coll,
            exists l, process_due_once cfg env coll = (coll, [Printed l], false))
    as Hpass.
  { intros env coll. unfold process_due_once.
    destruct (db cfg); simpl; [|eauto].
    destruct Hcfg as [Hcfg|Hcfg]; [discriminate Hcfg|].
    rewrite Hcfg. simpl. eauto. }
  split.
  - intros env coll. destruct (Hpass env coll) as [l Hl].
    exists l. unfold run_once. now rewrite Hl.
  - intros ts. induction ts as [|t ts IH]; intros coll;
      [split; [reflexivity|constructor]|].
    rewrite run_passes_cons. simpl.
    destruct (Hpass (trigger_env t) coll) as [l Hl].
    assert (fire cfg t coll = (coll, [Printed l] ++ epilogue cfg t false))
      as ->.
    { rewrite fire_pass, Hl. reflexivity. }
    simpl. destruct (IH coll) as [IH1 IH2].
    split; [exact IH1|]. constructor; [|exact IH2].
    now destruct t.
Qed.

Lemma unconfigured_passes_idle_witness :
  exists l,
    run_once (mkConfig true true None "+91" 900 60)
      (mkPassEnv sample_clock false (fun _ => true) (fun _ => true) (fun _ => 0%Z))
      [sample_user [sample_reminder]]
    = ([sample_user [sample_reminder]], [Printed l], Success200).
Proof.
  apply (proj1 (unconfigured_passes_idle (mkConfig true true None "+91" 900 60)
                  (or_intror eq_refl))).
Defined.

Lemma process_due_once_call_configured cfg env coll p to msg outcome :
  ProviderCall p to msg outcome ∈ (process_due_once cfg env coll).1.2 ->
  db cfg = true /\ provider_configured cfg = true
  /\ (0 <= WINDOW_SECONDS cfg)%Z.
Proof.
  intros Hin.
  assert (db cfg = true /\ provider_configured cfg = true) as [Hdb Hprov].
  { pass_cases cfg env coll; [|auto].
    rewrite Hpass in Hin. simpl in Hin.
    destruct (Hlog _ Hin) as [l Hl]. discriminate Hl. }
  split; [exact Hdb|]. split; [exact Hprov|].
  apply process_due_once_origin in Hin as [[l Hl]|Hin]; [discriminate Hl|].
  destruct Hin as (ui & u & ri & r & c & _ & _ & _ & _ & Hin & _).
  apply reminder_step_call in Hin
    as (_ & _ & _ & _ & _ & _ & dt & diff & _ & _ & Hwin).
  apply in_window_bounds in Hwin. lia.
Qed.

Lemma sample_pass_calls cfg :
  db cfg = true -> provider_configured cfg = true ->
  (0 <= WINDOW_SECONDS cfg)%Z ->
  call_positions
    (process_due_once cfg (healthy (DateTime.mkdatetime 2024 5 1 9 30 0 0 None))
       [sample_user [sample_reminder]]).1.2
  <> [].
Proof.
  intros Hdb Hprov Hwin.
  set (env := healthy (DateTime.mkdatetime 2024 5 1 9 30 0 0 None)).
  set (coll := [sample_user [sample_reminder]]).
  rewrite (process_due_once_run cfg env coll Hdb Hprov eq_refl).
  replace (jobs (find coll))
    with [((0, 0), Some "u1", Some "98765 43210", sample_reminder) : Job]
    by (vm_compute; reflexivity).
  rewrite run_jobs_cons. cbn zeta. unfold run_job.
  destruct (reminder_step_due cfg env coll (0, 0) (Some "u1")
              (Some "98765 43210") sample_reminder
              (DateTime.mkdatetime 2024 5 1 9 30 0 0 None) 0%Z)
    as (Hok & Hcall & _);
    [exact Hprov|reflexivity|vm_compute; reflexivity|vm_compute; reflexivity
    |apply in_window_bounds; lia|].
  rewrite Hok. simpl. rewrite app_nil_r.
  intros Hnil.
  assert ((0, 0) ∈ call_positions
            (reminder_step cfg env coll (0, 0) (Some "u1") (Some "98765 43210")
               sample_reminder).1.2) as Hin.
  { apply list_elem_of_omap. eexists. split; [exact Hcall|reflexivity]. }
  rewrite Hnil in Hin. list_cases Hin.
Qed.

(** X7. The health report and the scanner agree: some pass can place a
    call exactly when the report shows [mongodb] and [twilio] true and a
    window that is not negative. *)
Theorem health_ready cfg :
  (exists env coll, call_positions (process_due_once cfg env coll).1.2 <> [])
  <-> mongodb (health cfg) = true /\ twilio (health cfg) = true
      /\ (0 <= windowSeconds (health cfg))%Z.
Proof.
  unfold health. simpl. split.
  - intros (env & coll & Hcalls).
    destruct (call_positions (process_due_once cfg env coll).1.2) as [|p ps] eqn:E;
      [congruence|].
    assert (p ∈ call_positions (process_due_once cfg env coll).1.2) as Hin.
    { rewrite E. in_list. }
    apply list_elem_of_omap in Hin as (e & He & Hp).
    destruct e as [| |q to msg outcome| | | |]; try discriminate Hp.
    exact (process_due_once_call_configured _ _ _ _ _ _ _ He).
  - intros (Hdb & Hprov & Hwin).
    exists (healthy (DateTime.mkdatetime 2024 5 1 9 30 0 0 None)),
           [sample_user [sample_reminder]].
    now apply sample_pass_calls.
Qed.

(** ** Exceptions *)

Lemma reminder_step_raised_same cfg env c c' p uid num r :
  (reminder_step cfg env c p uid num r).2
  = (reminder_step cfg env c' p uid num r).2.
Proof.
  unfold reminder_step.
  destruct (calledAt r); [reflexivity|].
  destruct (try_parse_datetime (date r) (time r)) as [dt|]; [|reflexivity].
  destruct (DateTime.sub (now env) dt) as [diff|]; [|reflexivity].
  destruct (in_window cfg diff); [|reflexivity].
  destruct (dispatch cfg env c p uid num r), (dispatch cfg env c' p uid num r).
  reflexivity.
Qed.

Lemma reminder_step_aware cfg env coll p uid num r q dt :
  Parsed q (Some dt) ∈ (reminder_step cfg env coll p uid num r).1.2 ->
  DateTime.tzinfo dt <> None ->
  (reminder_step cfg env coll p uid num r).2 = true.
Proof.
  assert (forall d, DateTime.tzinfo d <> None -> DateTime.sub (now env) d = None)
    as Haware.
  { intros d Hd. unfold DateTime.sub. simpl. now destruct (DateTime.tzinfo d). }
  step_cases cfg env coll p uid num r; rewrite Hres; simpl; intros H Htz.
  - list_cases H.
  - list_cases H.
  - reflexivity.
  - list_cases H. injection H as _ ->.
    rewrite (Haware _ Htz) in Hsub. discriminate Hsub.
  - apply elem_of_cons in H as [H|H].
    + injection H as _ ->. rewrite (Haware _ Htz) in Hsub. discriminate Hsub.
    + apply elem_of_cons in H as [H|H]; [discriminate H|].
      dispatch_cases cfg env coll p uid num r; rewrite Hdisp in H; simpl in H;
        list_cases H.
Qed.

(** X8. The manual trigger answers 500 exactly when store and provider are
    configured and either the candidate query raised or the pass parsed an
    instant that carries a UTC offset. *)
Theorem run_once_failure cfg env coll :
  (run_once cfg env coll).2 = Failure500 <->
  db cfg = true /\ provider_configured cfg = true
  /\ (store_up env = false
      \/ exists p dt,
           Parsed p (Some dt) ∈ (run_once cfg env coll).1.2
           /\ DateTime.tzinfo dt <> None).
Proof.
  assert ((run_once cfg env coll).1.2 = (process_due_once cfg env coll).1.2)
    as Hlog.
  { unfold run_once. now destruct (process_due_once cfg env coll) as [[c e] r]. }
  assert ((run_once cfg env coll).2 = Failure500
          <-> (process_due_once cfg env coll).2 = true) as ->.
  { unfold run_once. destruct (process_due_once cfg env coll) as [[c e] []];
      simpl; split; congruence. }
  rewrite Hlog. split.
  - intros Hraised.
    assert (db cfg = true /\ provider_configured cfg = true) as [Hdb Hprov].
    { unfold process_due_once in Hraised.
      destruct (db cfg); [|discriminate Hraised].
      destruct (provider_configured cfg); [auto|discriminate Hraised]. }
    split; [exact Hdb|]. split; [exact Hprov|].
    apply process_due_once_raised in Hraised as [Hdown|(p & dt & Hin & Hsub)];
      [now left|right].
    exists p, dt. split; [exact Hin|].
    intros Htz. unfold DateTime.sub in Hsub. simpl in Hsub.
    rewrite Htz in Hsub. discriminate Hsub.
  - intros (Hdb & Hprov & [Hdown|(p & dt & Hin & Htz)]).
    + unfold process_due_once. now rewrite Hdb, Hprov, Hdown.
    + destruct (process_due_once cfg env coll).2 eqn:Hr; [reflexivity|exfalso].
      assert (store_up env = true) as Hup.
      { pass_cases cfg env coll; [|exact Hup].
        rewrite Hpass in Hin. simpl in Hin.
        destruct (Hlog0 _ Hin) as [l Hl]. discriminate Hl. }
      apply process_due_once_origin in Hin as [[l Hl]|Hin]; [discriminate Hl|].
      destruct Hin as (ui & u & ri & r & c & Hu & Hf & Hrm & _ & Hin & _).
      destruct (process_due_once_reaches cfg env coll ui u ri r
                  Hdb Hprov Hup Hr Hu Hf Hrm) as (c' & _ & Hok & _).
      rewrite (reminder_step_raised_same cfg env c' c) in Hok.
      rewrite (reminder_step_aware _ _ _ _ _ _ _ _ _ Hin Htz) in Hok.
      discriminate Hok.
Qed.

Lemma run_jobs_blocked cfg env a j b coll :
  (forall c, (run_job cfg env c j).2 = true) ->
  (run_jobs cfg env (a ++ j :: b) coll).2 = true
  /\ forall e, e ∈ (run_jobs cfg env (a ++ j :: b) coll).1.2 ->
       exists j' c, j' ∈ a ++ [j] /\ e ∈ (run_job cfg env c j').1.2.
Proof.
  intros Hj. rewrite run_jobs_app. cbn zeta.
  destruct (run_jobs cfg env a coll).2 eqn:Ha.
  - simpl. split; [reflexivity|]. intros e He.
    apply run_jobs_origin in He as (j' & c & Hin & _ & He & _).
    exists j', c. split; [apply elem_of_app; now left|exact He].
  - rewrite run_jobs_cons. cbn zeta. rewrite Hj. simpl.
    split; [reflexivity|]. intros e [He|He]%elem_of_app.
    + apply run_jobs_origin in He as (j' & c & Hin & _ & He & _).
      exists j', c. split; [apply elem_of_app; now left|exact He].
    + exists j, (run_jobs cfg env a coll).1.1.
      split; [apply elem_of_app; right; in_list|exact He].
Qed.

(** X9. An uncalled reminder of a selected user whose date and time
    resolve to an instant with a UTC offset ends every pass that reaches it:
    the pass raises, the manual trigger answers 500, and no reminder after
    it in document order is parsed, classified or called. *)
Theorem aware_instant_blocks cfg env coll ui u ri r dt :
  db cfg = true -> provider_configured cfg = true -> store_up env = true ->
  coll !! ui = Some u -> find_filter u = true -> reminders u !! ri = Some r ->
  calledAt r = None ->
  try_parse_datetime (date r) (time r) = Some dt ->
  DateTime.tzinfo dt <> None ->
  (process_due_once cfg env coll).2 = true
  /\ (run_once cfg env coll).2 = Failure500
  /\ forall e q,
       e ∈ (process_due_once cfg env coll).1.2 -> examines q e ->
       q = (ui, ri) \/ pos_lt q (ui, ri).
Proof.
  intros Hdb Hprov Hup Hu Hf Hr Hcalled Hparse Htz.
  set (j := ((ui, ri), userId u, phoneNumber u, r) : Job).
  assert (j ∈ jobs (find coll)) as Hj.
  { apply jobs_find_spec. exists ui, u, ri, r. auto. }
  assert (forall c, (run_job cfg env c j).2 = true) as Hraise.
  { intros c. unfold j, run_job, reminder_step. rewrite Hcalled, Hparse.
    unfold DateTime.sub. simpl. now destruct (DateTime.tzinfo dt). }
  apply list_elem_of_split in Hj as (a & b & Hsplit).
  pose proof (jobs_find_from_sorted 0 coll) as Hsorted.
  fold (find coll) in Hsorted. rewrite Hsplit in Hsorted.
  destruct (run_jobs_blocked cfg env a j b coll Hraise) as [Hraised Hfrom].
  assert ((process_due_once cfg env coll).2 = true) as Hpass.
  { rewrite (process_due_once_run _ _ _ Hdb Hprov Hup), Hsplit. exact Hraised. }
  split; [exact Hpass|]. split.
  { unfold run_once. destruct (process_due_once cfg env coll) as [[c e] raised].
    simpl in Hpass. now rewrite Hpass. }
  intros e q He Hex.
  rewrite (process_due_once_run _ _ _ Hdb Hprov Hup), Hsplit in He.
  destruct (Hfrom _ He) as ([[[p' uid'] num'] r'] & c & Hin & He').
  unfold run_job in He'.
  assert (q = p') as ->.
  { apply reminder_step_positions in He' as [->|Hpos]; [destruct Hex|].
    destruct e; simpl in Hex, Hpos; congruence || contradiction. }
  apply elem_of_app in Hin as [Hin|Hin].
  - right. rewrite fmap_app in Hsorted.
    change p' with (job_pos (p', uid', num', r')).
    change (ui, ri) with (job_pos j).
    eapply (StronglySorted_app_1_elem_of _ _ _ _ _ Hsorted).
    + apply list_elem_of_fmap. eauto.
    + rewrite fmap_cons. in_list.
  - left. list_cases Hin. now injection Hin.
Qed.

Lemma aware_instant_blocks_witness :
  (process_due_once sample_cfg (healthy sample_clock)
     [sample_user [aware_reminder; sample_reminder]]).2 = true.
Proof.
  apply (aware_instant_blocks sample_cfg (healthy sample_clock)
           [sample_user [aware_reminder; sample_reminder]]
           0 (sample_user [aware_reminder; sample_reminder]) 0 aware_reminder
           (DateTime.mkdatetime 2024 5 1 9 30 0 0 (Some 19800000000%Z)));
    first [reflexivity | discriminate].
Defined.

Lemma reminder_step_call_failed cfg env coll p uid num r uid' :
  Printed (CallFailed uid') ∈ (reminder_step cfg env coll p uid num r).1.2 ->
  provider_configured cfg = true ->
  uid' = uid
  /\ ((exists to msg,
         ProviderCall p to msg false ∈ (reminder_step cfg env coll p uid num r).1.2)
      \/ MarkRaised p ∈ (reminder_step cfg env coll p uid num r).1.2).
Proof.
  step_cases cfg env coll p uid num r; rewrite Hres; simpl; intros H Hprov;
    try (list_cases H; fail).
  dispatch_cases cfg env coll p uid num r; rewrite Hdisp in *; simpl in *;
    [congruence| | |]; list_cases H; injection H as ->; split; try reflexivity.
  - left. eexists _, _. in_list.
  - right. in_list.
Qed.

Lemma reminder_step_mark_raised cfg env coll p uid num r q :
  MarkRaised q ∈ (reminder_step cfg env coll p uid num r).1.2 ->
  q = p /\ mark_ok env p = false
  /\ Printed (CallFailed uid) ∈ (reminder_step cfg env coll p uid num r).1.2
  /\ exists to msg,
       ProviderCall p to msg true ∈ (reminder_step cfg env coll p uid num r).1.2.
Proof.
  step_cases cfg env coll p uid num r; rewrite Hres; simpl; intros H;
    try (list_cases H; fail).
  dispatch_cases cfg env coll p uid num r; rewrite Hdisp in *; simpl in *;
    list_cases H; injection H as ->.
  split; [reflexivity|]. split; [exact Hmark|]. split; [in_list|].
  eexists _, _. in_list.
Qed.

(** X10. The line [Call failed for user ...] of a pass names the [userId]
    of a document of the collection and follows either a call the provider
    refused or a mark-called write that raised; in the second case the call
    had been accepted. The [RuntimeError] of [call_phone] is never its
    cause inside a pass. *)
Theorem call_failed_line cfg env coll :
  (forall uid,
     Printed (CallFailed uid) ∈ (process_due_once cfg env coll).1.2 ->
     exists ui u ri,
       coll !! ui = Some u /\ userId u = uid
       /\ ((exists to msg,
              ProviderCall (ui, ri) to msg false
                ∈ (process_due_once cfg env coll).1.2)
           \/ MarkRaised (ui, ri) ∈ (process_due_once cfg env coll).1.2))
  /\ (forall ui ri,
        MarkRaised (ui, ri) ∈ (process_due_once cfg env coll).1.2 ->
        mark_ok env (ui, ri) = false
        /\ exists u to msg,
             coll !! ui = Some u
             /\ ProviderCall (ui, ri) to msg true
                  ∈ (process_due_once cfg env coll).1.2
             /\ Printed (CallFailed (userId u))
                  ∈ (process_due_once cfg env coll).1.2).
Proof.
  split.
  - intros uid Hin.
    assert (db cfg = true /\ provider_configured cfg = true
            /\ store_up env = true) as (Hdb & Hprov & Hup).
    { unfold process_due_once in Hin.
      destruct (db cfg); simpl in Hin; [|list_cases Hin].
      destruct (provider_configured cfg); simpl in Hin; [|list_cases Hin].
      destruct (store_up env); simpl in Hin; [auto|list_cases Hin]. }
    pose proof (process_due_once_run cfg env coll Hdb Hprov Hup) as Hrun.
    rewrite Hrun in *.
    apply run_jobs_origin in Hin as (j & c & Hj & _ & Hin & Hall & _).
    apply jobs_find_spec in Hj as (ui & u & ri & r & Hu & _ & _ & ->).
    simpl in Hin, Hall.
    destruct (reminder_step_call_failed _ _ _ _ _ _ _ _ Hin Hprov)
      as [-> Hwhy].
    exists ui, u, ri. split; [exact Hu|]. split; [reflexivity|].
    destruct Hwhy as [(to & msg & Hc)|Hm]; [left|right; auto].
    exists to, msg. auto.
  - intros ui ri Hin.
    apply process_due_once_origin in Hin as [[l Hl]|Hin]; [discriminate Hl|].
    destruct Hin as (ui' & u & ri' & r & c & Hu & _ & _ & _ & Hin & Hall & _).
    apply reminder_step_mark_raised in Hin as (Hq & Hmark & Hline & to & msg & Hc).
    injection Hq as -> ->.
    split; [exact Hmark|]. exists u, to, msg. auto.
Qed.

Lemma call_failed_line_witness :
  let env := mkPassEnv sample_clock true (fun _ => true) (fun _ => false)
               (fun _ => 0%Z) in
  let coll := [sample_user [sample_reminder]] in
  mark_ok env (0, 0) = false
  /\ exists u to msg,
       coll !! 0 = Some u
       /\ ProviderCall (0, 0) to msg true ∈ (process_due_once sample_cfg env coll).1.2
       /\ Printed (CallFailed (userId u)) ∈ (process_due_once sample_cfg env coll).1.2.
Proof.
  intros env coll.
  apply (proj2 (call_failed_line sample_cfg env coll) 0 0).
  vm_compute. in_list.
Defined.

(** ** The mark-called write under unique identifiers *)

Lemma mark_called_first coll user_id reminder stamp i u j r' :
  coll !! i = Some u -> userId u = user_id ->
  reminders u !! j = Some r' -> identifies reminder r' ->
  (forall i' u' j' r'',
     coll !! i' = Some u' -> userId u' = user_id ->
     reminders u' !! j' = Some r'' -> identifies reminder r'' ->
     i < i' \/ (i = i' /\ j <= j')) ->
  mark_called coll user_id reminder stamp
  = (<[i := set_reminders u (<[j := set_calledAt r' stamp]> (reminders u))]> coll,
     Some (i, j)).
Proof.
  intros Hu Huid Hr Hid Hfirst.
  assert (doc_matches user_id reminder u = true) as Hdoc.
  { apply doc_matches_spec. eauto. }
  destruct (mark_called coll user_id reminder stamp) as [coll' [[i0 j0]|]] eqn:E.
  - apply mark_called_hit in E
      as (u0 & r0 & Hu0 & Hr0 & Hdoc0 & Helem0 & Hf1 & Hf2 & ->).
    apply doc_matches_spec in Hdoc0 as [Huid0 _].
    apply elem_matches_identifies in Helem0.
    destruct (Hfirst _ _ _ _ Hu0 Huid0 Hr0 Helem0) as [Hlt|[-> Hle]].
    + exfalso. exact (Hf1 _ _ Hu Hlt Hdoc).
    + assert (u0 = u) as -> by congruence.
      destruct (decide (j = j0)) as [->|Hne].
      * assert (r0 = r') as -> by congruence. reflexivity.
      * exfalso. apply (Hf2 _ _ Hr); [lia|].
        now apply elem_matches_identifies.
  - apply mark_called_miss in E as [_ Hnone].
    exfalso. apply (Hnone u); [|exact Hdoc].
    apply list_elem_of_lookup. eauto.
Qed.

Lemma mark_called_unique coll i u j r r0 stamp :
  uniquely_identified coll ->
  coll !! i = Some u -> reminders u !! j = Some r ->
  createdAt r0 = createdAt r ->
  mark_called coll (userId u) r0 stamp
  = (<[i := set_reminders u (<[j := set_calledAt r stamp]> (reminders u))]> coll,
     Some (i, j)).
Proof.
  intros Huniq Hu Hr Hc.
  destruct (Huniq _ _ _ _ Hu Hr) as [[created Hcreated] Honly].
  assert (forall x, identifies r0 x <-> createdAt x = createdAt r) as Hid.
  { intros x. unfold identifies. rewrite Hc, Hcreated. reflexivity. }
  apply mark_called_first; [exact Hu|reflexivity|exact Hr|now apply Hid|].
  intros i' u' j' r'' Hu' Huid' Hr' Hid'.
  apply Hid in Hid'.
  assert ((i', j') = (i, j)) as Heq by (apply (Honly _ _ _ _ Hu' Hr'); auto).
  injection Heq as -> ->. right. auto.
Qed.

Lemma sample_uniquely_identified :
  uniquely_identified
    [sample_user [identified_reminder 1; identified_reminder 2]].
Proof.
  intros i u j r Hu Hr.
  destruct i as [|i]; [|discriminate Hu]. injection Hu as <-.
  destruct j as [|[|j]]; [| |discriminate Hr]; injection Hr as <-;
    (split; [eexists; reflexivity|]);
    intros i' u' j' r' Hu' Hr' _ Hc;
    (destruct i' as [|i']; [|discriminate Hu']); injection Hu' as <-;
    (destruct j' as [|[|j']]; [| |discriminate Hr']); injection Hr' as <-;
    first [reflexivity | discriminate Hc].
Qed.

(** X11. When every reminder carries a [createdAt] that no other reminder
    of a document with the same [userId] shares, [mark_called] for a stored
    reminder stamps that reminder and no other. *)
Theorem mark_called_exact coll i u j r stamp :
  uniquely_identified coll ->
  coll !! i = Some u -> reminders u !! j = Some r ->
  (mark_called coll (userId u) r stamp).2 = Some (i, j)
  /\ forall q,
       reminder_at (mark_called coll (userId u) r stamp).1 q
       = if decide (q = (i, j)) then Some (set_calledAt r stamp)
         else reminder_at coll q.
Proof.
  intros Huniq Hu Hr.
  rewrite (mark_called_unique coll i u j r r stamp Huniq Hu Hr eq_refl). simpl.
  split; [reflexivity|].
  intros q. exact (reminder_at_stamped _ _ _ _ _ _ _ Hu Hr).
Qed.

Lemma mark_called_exact_witness :
  (mark_called [sample_user [identified_reminder 1; identified_reminder 2]]
     (Some "u1") (identified_reminder 2) 7%Z).2
  = Some (0, 1).
Proof.
  apply (mark_called_exact
           [sample_user [identified_reminder 1; identified_reminder 2]]
           0 (sample_user [identified_reminder 1; identified_reminder 2])
           1 (identified_reminder 2) 7%Z sample_uniquely_identified);
    reflexivity.
Defined.

(** X12. [mark_called] applied a second time with the same arguments: by
    [createdAt] it finds the same reminder again and overwrites its stamp;
    by value it cannot find that reminder again, since the filter requires
    a null [calledAt]. *)
Theorem mark_called_again coll user_id reminder s1 s2 q :
  (mark_called coll user_id reminder s1).2 = Some q ->
  match createdAt reminder with
  | Some _ =>
      (mark_called (mark_called coll user_id reminder s1).1 user_id reminder s2).2
      = Some q
      /\ calledAt_at
           (mark_called (mark_called coll user_id reminder s1).1
              user_id reminder s2).1 q
         = Some s2
  | None =>
      (mark_called (mark_called coll user_id reminder s1).1 user_id reminder s2).2
      <> Some q
  end.
Proof.
  destruct (mark_called coll user_id reminder s1) as [coll1 hit] eqn:E1.
  simpl. intros ->. destruct q as [i j].
  pose proof (mark_called_evolves coll user_id reminder s1) as Hev.
  rewrite E1 in Hev. simpl in Hev.
  pose proof (mark_called_stamps _ _ _ _ _ _ E1) as Hstamp.
  apply mark_called_hit in E1
    as (u & r' & Hu & Hr & Hdoc & Helem & Hf1 & Hf2 & Hcoll1).
  apply doc_matches_spec in Hdoc as [Huid _].
  apply elem_matches_identifies in Helem.
  destruct (createdAt reminder) as [created|] eqn:Hcreated.
  - assert (forall x, identifies reminder x <-> createdAt x = Some created) as Hid.
    { intros x. unfold identifies. now rewrite Hcreated. }
    destruct (evolves_user _ _ _ _ Hev Hu) as (u1 & Hu1 & Huid1 & _ & _ & Hrs).
    destruct (Hrs _ _ Hr) as (r1 & Hr1 & _ & _ & _ & Hc1).
    assert (mark_called coll1 user_id reminder s2
            = (<[i := set_reminders u1 (<[j := set_calledAt r1 s2]> (reminders u1))]>
                 coll1, Some (i, j))) as E2.
    { apply mark_called_first; [exact Hu1|congruence|exact Hr1| |].
      - apply Hid. rewrite Hc1. now apply Hid.
      - intros i' u' j' r'' Hu' Huid' Hr' Hid'.
        destruct (evolves_user_back _ _ _ _ Hev Hu')
          as (u0 & Hu0 & Huid0 & _ & _ & Hrs0).
        destruct (Hrs0 _ _ Hr') as (r0 & Hr0 & _ & _ & _ & Hc0).
        assert (identifies reminder r0) as Hid0.
        { apply Hid. rewrite Hc0. now apply Hid. }
        destruct (lt_eq_lt_dec i' i) as [[Hlt| ->]|Hgt]; [|..|left; lia].
        + exfalso. apply (Hf1 _ _ Hu0 Hlt).
          apply doc_matches_spec. split; [congruence|eauto].
        + right. split; [reflexivity|].
          destruct (le_lt_dec j j') as [Hle|Hlt]; [exact Hle|].
          exfalso. assert (u0 = u) as -> by congruence.
          apply (Hf2 _ _ Hr0 Hlt). now apply elem_matches_identifies. }
    rewrite E2. simpl. split; [reflexivity|].
    exact (mark_called_stamps _ _ _ _ _ _ E2).
  - destruct (mark_called coll1 user_id reminder s2) as [coll2 hit2] eqn:E2.
    simpl. intros ->.
    apply mark_called_hit in E2
      as (u2 & r2 & Hu2 & Hr2 & _ & Helem2 & _).
    apply elem_matches_identifies in Helem2.
    unfold identifies in Helem2. rewrite Hcreated in Helem2.
    destruct Helem2 as (_ & _ & _ & Hnull).
    unfold calledAt_at, reminder_at in Hstamp. simpl in Hstamp.
    rewrite Hu2 in Hstamp. simpl in Hstamp. rewrite Hr2 in Hstamp.
    simpl in Hstamp. congruence.
Qed.

Lemma mark_called_again_witness :
  (mark_called
     (mark_called [sample_user [sample_reminder; sample_reminder]]
        (Some "u1") sample_reminder 7%Z).1
     (Some "u1") sample_reminder 8%Z).2
  <> Some (0, 0).
Proof.
  apply (mark_called_again [sample_user [sample_reminder; sample_reminder]]
           (Some "u1") sample_reminder 7%Z 8%Z (0, 0)).
  reflexivity.
Defined.




Lemma process_due_once_marks_land cfg env coll :
  uniquely_identified coll ->
  (forall p, mark_ok env p = true) ->
  marks_land (process_due_once cfg env coll).1.2.
Proof.
  intros Huniq Hok. split.
  - intros p Hin.
    apply process_due_once_origin in Hin as [[l Hl]|Hin]; [discriminate Hl|].
    destruct Hin as (ui & u & ri & r & c & _ & _ & _ & _ & Hin & _).
    apply reminder_step_mark_raised in Hin as (_ & Hbad & _).
    rewrite Hok in Hbad. discriminate Hbad.
  - intros p hit Hin.
    apply process_due_once_origin in Hin as [[l Hl]|Hin]; [discriminate Hl|].
    destruct Hin as (ui & u & ri & r & c & Hu & _ & Hr & Hev & Hin & _).
    apply reminder_step_mark in Hin as (-> & _ & _ & ->).
    destruct (evolves_user _ _ _ _ Hev Hu) as (u' & Hu' & Huid & _ & _ & Hrs).
    destruct (Hrs _ _ Hr) as (r' & Hr' & _ & _ & _ & Hc).
    rewrite <- Huid.
    now rewrite (mark_called_unique c ui u' ri r' r (utcnow env (ui, ri))
                   (uniquely_identified_evolves _ _ Hev Huniq) Hu' Hr'
                   (eq_sym Hc)).
Qed.

Lemma fire_marks_land cfg t coll :
  uniquely_identified coll ->
  (forall p, mark_ok (trigger_env t) p = true) ->
  marks_land (fire cfg t coll).2.
Proof.
  intros Huniq Hok.
  destruct (process_due_once_marks_land cfg (trigger_env t) coll Huniq Hok)
    as [H1 H2].
  rewrite fire_pass. simpl. split.
  - intros p [Hin|Hin]%elem_of_app; [exact (H1 _ Hin)|].
    apply epilogue_events in Hin as [Hin|Hin]; discriminate Hin.
  - intros p hit [Hin|Hin]%elem_of_app; [exact (H2 _ _ Hin)|].
    apply epilogue_events in Hin as [Hin|Hin]; discriminate Hin.
Qed.

Lemma run_passes_marks_land cfg ts coll :
  uniquely_identified coll ->
  Forall (fun t => forall p, mark_ok (trigger_env t) p = true) ts ->
  Forall marks_land (run_passes cfg ts coll).2.
Proof.
  revert coll. induction ts as [|t ts IH]; intros coll Huniq Hok; [constructor|].
  apply Forall_cons in Hok as [Ht Hts].
  rewrite run_passes_cons. simpl. constructor.
  - now apply fire_marks_land.
  - apply IH; [|exact Hts].
    exact (uniquely_identified_evolves _ _ (fire_evolves cfg t coll) Huniq).
Qed.

Lemma run_passes_success_stamped cfg ts coll log p to msg :
  Forall marks_land (run_passes cfg ts coll).2 ->
  log ∈ (run_passes cfg ts coll).2 ->
  ProviderCall p to msg true ∈ log ->
  is_Some (calledAt_at (run_passes cfg ts coll).1 p).
Proof.
  revert coll. induction ts as [|t ts IH]; intros coll Hland Hlog Hcall.
  - simpl in Hlog. list_cases Hlog.
  - rewrite run_passes_cons in *. simpl in *.
    apply Forall_cons in Hland as [Hhead Htail].
    apply elem_of_cons in Hlog as [->|Hlog]; [|now apply IH].
    apply (run_passes_evolves cfg ts).
    pose proof (marks_land_pass _ _ _ Hhead) as Hpass.
    rewrite fire_pass in Hcall |- *. simpl in *.
    apply elem_of_app in Hcall as [Hcall|Hcall].
    + eapply process_due_once_success_marked; eauto.
    + apply epilogue_events in Hcall as [Hcall|Hcall]; discriminate Hcall.
Qed.

(** X14. When every reminder carries a [createdAt] that no other reminder
    of a document with the same [userId] shares, and no mark-called write
    raises, a run of passes has at most one accepted call per reminder,
    every mark-called write stamps the reminder it was made for, and every
    reminder with an accepted call has [calledAt] set when the run ends. *)
Theorem unique_identifiers_call_once cfg ts coll :
  uniquely_identified coll ->
  Forall (fun t => forall p, mark_ok (trigger_env t) p = true) ts ->
  (forall p, successes p (concat (run_passes cfg ts coll).2) <= 1)
  /\ (forall log p hit, log ∈ (run_passes cfg ts coll).2 ->
        MarkWrite p hit ∈ log -> hit = Some p)
  /\ (forall log p to msg, log ∈ (run_passes cfg ts coll).2 ->
        ProviderCall p to msg true ∈ log ->
        is_Some (calledAt_at (run_passes cfg ts coll).1 p)).
Proof.
  intros Huniq Hok.
  pose proof (run_passes_marks_land cfg ts coll Huniq Hok) as Hland.
  split; [|split].
  - intros p. now apply run_passes_once.
  - intros log p hit Hlog Hin.
    rewrite Forall_forall in Hland. now apply (Hland log Hlog).
  - intros log p to msg. now apply run_passes_success_stamped.
Qed.

Lemma unique_identifiers_call_once_witness :
  successes (0, 1)
    (concat
       (run_passes sample_cfg
          [Tick (healthy sample_clock); Manual (healthy sample_clock)]
          [sample_user [identified_reminder 1; identified_reminder 2]]).2)
  <= 1.
Proof.
  apply (proj1 (unique_identifiers_call_once sample_cfg
                  [Tick (healthy sample_clock); Manual (healthy sample_clock)]
                  [sample_user [identified_reminder 1; identified_reminder 2]]
                  sample_uniquely_identified
                  ltac:(repeat constructor))).
Defined.

(** ** The entry points compose *)





(** ** The resolver and its fallback *)

(** X16. Whatever the ISO parser does, the [DD/MM/YYYY HH:MM] fallback can
    only succeed on the candidate joined by a blank (the pattern accepts no
    [T]), so the resolver is: ISO on the blank form, the fallback on the
    blank form, ISO on the [T] form. An instant the fallback returns is
    naive with zero seconds, so subtracting it from [now] never raises. *)
Theorem fallback_resolution :
  (forall iso d t,
     try_parse_datetime_with iso DateTime.strptime_dmY_HM d t
     = if negb (PyStr.truthy d) || negb (PyStr.truthy t) then None
       else
         match iso (PyStr.fmt d +:+ " " +:+ PyStr.fmt t) with
         | Some dt => Some dt
         | None =>
             match DateTime.strptime_dmY_HM (PyStr.fmt d +:+ " " +:+ PyStr.fmt t) with
             | Some dt => Some dt
             | None => iso (PyStr.fmt d +:+ "T" +:+ PyStr.fmt t)
             end
         end)
  /\ (forall s dt env,
        DateTime.strptime_dmY_HM s = Some dt ->
        DateTime.second dt = 0%Z /\ DateTime.microsecond dt = 0%Z
        /\ DateTime.tzinfo dt = None
        /\ DateTime.sub (now env) dt
           = Some (DateTime.wall_micros (now env) - DateTime.wall_micros dt)%Z).
Proof.
  split.
  - intros iso d t. unfold try_parse_datetime_with.
    destruct (negb (PyStr.truthy d) || negb (PyStr.truthy t)); [reflexivity|].
    simpl. rewrite strptime_rejects_T.
    destruct (iso (PyStr.fmt d +:+ " " +:+ PyStr.fmt t)); [reflexivity|].
    destruct (DateTime.strptime_dmY_HM _); [reflexivity|].
    now destruct (iso (PyStr.fmt d +:+ "T" +:+ PyStr.fmt t)).
  - intros s dt env H. unfold DateTime.strptime_dmY_HM in H.
    destruct (DateTime.match_day s) as [[d s1]|]; simpl in H; [|discriminate].
    destruct (DateTime.match_month s1) as [[m s2]|]; simpl in H; [|discriminate].
    destruct (DateTime.match_year s2) as [[y s3]|]; simpl in H; [|discriminate].
    destruct (DateTime.match_spaces s3) as [s4|]; simpl in H; [|discriminate].
    destruct (DateTime.match_hour s4) as [[h s5]|]; simpl in H; [|discriminate].
    destruct (DateTime.match_minute_end s5) as [mi|]; simpl in H; [|discriminate].
    unfold DateTime.make in H.
    destruct (DateTime.valid_date y m d && DateTime.valid_time h mi 0 0);
      [|discriminate].
    injection H as <-. repeat split; reflexivity.
Qed.

Lemma fallback_resolution_witness :
  DateTime.second (DateTime.mkdatetime 2024 5 1 9 30 0 0 None) = 0%Z
  /\ DateTime.microsecond (DateTime.mkdatetime 2024 5 1 9 30 0 0 None) = 0%Z
  /\ DateTime.tzinfo (DateTime.mkdatetime 2024 5 1 9 30 0 0 None) = None
  /\ DateTime.sub (now (healthy sample_clock))
       (DateTime.mkdatetime 2024 5 1 9 30 0 0 None)
     = Some (DateTime.wall_micros (now (healthy sample_clock))
             - DateTime.wall_micros (DateTime.mkdatetime 2024 5 1 9 30 0 0 None))%Z.
Proof.
  apply (proj2 fallback_resolution "01/05/2024 09:30").
  vm_compute. reflexivity.
Defined.

(** ** The normaliser *)

Lemma keep_append p a b : keep p (a +:+ b) = keep p a +:+ keep p b.
Proof.
  induction a as [|c a IH]; simpl; [reflexivity|].
  destruct (p c); simpl; now rewrite IH.
Qed.

Lemma keep_lstrip p s :
  (forall c, p c = true -> PyStr.isspace c = false) ->
  keep p (PyStr.lstrip s) = keep p s.
Proof.
  intros Hp. induction s as [|c s IH]; simpl; [reflexivity|].
  destruct (PyStr.isspace c) eqn:E; [|reflexivity].
  rewrite IH. destruct (p c) eqn:Ec; [|reflexivity].
  rewrite (Hp _ Ec) in E. discriminate E.
Qed.

Lemma keep_rstrip p s :
  (forall c, p c = true -> PyStr.isspace c = false) ->
  keep p (PyStr.rstrip s) = keep p s.
Proof.
  intros Hp. induction s as [|c s IH]; simpl; [reflexivity|].
  destruct (PyStr.rstrip s) as [|c' r] eqn:Er.
  - simpl in IH. rewrite <- IH.
    destruct (PyStr.isspace c) eqn:E; simpl.
    + destruct (p c) eqn:Ec; [|reflexivity].
      rewrite (Hp _ Ec) in E. discriminate E.
    + reflexivity.
  - cbn [keep]. now rewrite <- IH.
Qed.

Lemma keep_strip_separators p s :
  (forall c, p c = true -> is_separator c = false) ->
  keep p (strip_separators s) = keep p s.
Proof.
  intros Hp. induction s as [|c s IH]; simpl; [reflexivity|].
  destruct (is_separator c) eqn:E; simpl; rewrite IH; [|reflexivity].
  destruct (p c) eqn:Ec; [|reflexivity].
  rewrite (Hp _ Ec) in E. discriminate E.
Qed.

Lemma plain_cases c :
  plain c = true -> PyStr.isspace c = false /\ is_separator c = false.
Proof.
  unfold plain. destruct (PyStr.isspace c), (is_separator c); simpl;
    intros H; try discriminate H; auto.
Qed.

(** X17. [normalize_e164] validates nothing: apart from the prefix it may
    add, its result holds, in order, every character of the input that is
    neither white space nor a separator (the digits, for one). *)
Theorem normalize_e164_keeps p cc s :
  (forall c, p c = true -> plain c = true) ->
  exists n,
    (normalize_e164 cc (Some s) = Some n
     \/ (normalize_e164 cc (Some s) = Some (cc +:+ n)
         /\ PyStr.startswith "+" n = false))
    /\ keep p n = keep p s.
Proof.
  intros Hp. rewrite normalize_e164_some.
  assert (keep p (strip_separators (PyStr.strip s)) = keep p s) as Hkeep.
  { rewrite keep_strip_separators by (intros c Hc; now apply plain_cases, Hp).
    unfold PyStr.strip.
    rewrite keep_rstrip, keep_lstrip;
      [reflexivity|intros c Hc; now apply plain_cases, Hp..]. }
  destruct s as [|c s]; [exists ""; split; [now left|reflexivity]|].
  unfold normalize_contract.
  exists (strip_separators (PyStr.strip (String c s))).
  split; [|exact Hkeep].
  destruct (PyStr.startswith "+" _); [now left|right; auto].
Qed.

Lemma normalize_e164_keeps_witness :
  exists n,
    (normalize_e164 "+91" (Some " (987) 65-43210 ") = Some n
     \/ (normalize_e164 "+91" (Some " (987) 65-43210 ") = Some ("+91" +:+ n)
         /\ PyStr.startswith "+" n = false))
    /\ keep DateTime.is_digit n = keep DateTime.is_digit " (987) 65-43210 ".
Proof.
  apply (normalize_e164_keeps DateTime.is_digit "+91" " (987) 65-43210 ").
  intros c Hc. unfold DateTime.is_digit in Hc. unfold plain, PyStr.isspace, is_separator.
  destruct c as [[] [] [] [] [] [] [] []]; vm_compute in Hc |- *;
    first [reflexivity | discriminate Hc].
Defined.

(** X18. When the default country code begins with [+], every non-empty
    number normalises to a string that begins with [+]. *)
Theorem normalize_e164_plus cc s :
  PyStr.startswith "+" cc = true -> s <> "" ->
  exists n, normalize_e164 cc (Some s) = Some n /\ PyStr.startswith "+" n = true.
Proof.
  intros Hcc Hs. rewrite normalize_e164_some.
  destruct s as [|c s]; [congruence|].
  unfold normalize_contract.
  destruct (PyStr.startswith "+" (strip_separators (PyStr.strip (String c s))))
    eqn:E; eexists; (split; [reflexivity|]); [exact E|].
  now apply startswith_append.
Qed.

Lemma normalize_e164_plus_witness :
  exists n,
    normalize_e164 "+91" (Some "98765 43210") = Some n
    /\ PyStr.startswith "+" n = true.
Proof.
  apply (normalize_e164_plus "+91" "98765 43210"); [reflexivity|discriminate].
Defined.

(** X19. When the default country code holds no blank, hyphen or
    parenthesis, neither does the normalised number. *)
Theorem normalize_e164_clean cc s :
  PyStr.forallb (fun c => negb (is_separator c)) cc = true ->
  exists n,
    normalize_e164 cc (Some s) = Some n
    /\ PyStr.forallb (fun c => negb (is_separator c)) n = true.
Proof.
  intros Hcc. rewrite normalize_e164_some. eexists. split; [reflexivity|].
  destruct s as [|c s]; [reflexivity|].
  unfold normalize_contract.
  destruct (PyStr.startswith "+" _).
  - apply strip_separators_clean.
  - rewrite forallb_append, Hcc. apply strip_separators_clean.
Qed.

Lemma normalize_e164_clean_witness :
  exists n,
    normalize_e164 "+91" (Some "(98765) 432-10") = Some n
    /\ PyStr.forallb (fun c => negb (is_separator c)) n = true.
Proof.
  apply (normalize_e164_clean "+91" "(98765) 432-10"). reflexivity.
Defined.
